(** * KnowledgeOps backend: the [ask] cloud function (src/index.js)

    A shallow embedding of the single HTTP handler [exports.ask] and of its
    helper [getDriveFileContent].  The Google SDKs, the language model, the
    clock and the console are the handler's environment: every outbound call
    is answered by an oracle of the record [World], and every call made is
    recorded, in program order, in a trace of [Event]s.

    Conventions.
    - An awaited promise either resolves with a value or rejects with an
      error ([outcome]); every outbound call is assumed to settle.
    - The request body is the JSON object of the interface table: each of
      [type], [prompt], [accessToken], [code] is absent ([None], JavaScript
      [undefined]) or a string.
    - [Date.parse] belongs to the JavaScript runtime, not to this repository;
      it is an oracle of the world ([Date_parse]), and [new Date(v)] applies
      the language's TimeClip to its result. *)

From Stdlib Require Import String List ZArith Bool Lia.
Import ListNotations.
Local Open Scope string_scope.
Local Open Scope Z_scope.

Set Implicit Arguments.

(** ** JavaScript values used by the handler *)

(** An [Error] object; only its [message] is ever read. *)
Record Error : Type := mkError { message : string }.

(** A settled promise. *)
Inductive outcome (A : Type) : Type :=
| Resolved (a : A)
| Rejected (e : Error).
Arguments Resolved {A} a.
Arguments Rejected {A} e.

(** [!s] and [c => c] on strings: the empty string is the only falsy one. *)
Definition truthy (s : string) : bool :=
  match s with EmptyString => false | String _ _ => true end.

(** [!v] on a body field that may be [undefined]. *)
Definition falsy (v : option string) : bool :=
  match v with
  | None => true
  | Some s => negb (truthy s)
  end.

(** [v === 'lit'] on a body field. *)
Definition strict_eq (v : option string) (lit : string) : bool :=
  match v with
  | None => false
  | Some s => String.eqb s lit
  end.

(** Template-literal interpolation [${v}] of a possibly undefined string. *)
Definition interp (v : option string) : string :=
  match v with
  | None => "undefined"
  | Some s => s
  end.

(** [a || dflt] on a possibly undefined string. *)
Definition or_default (v : option string) (dflt : string) : string :=
  match v with
  | Some s => if truthy s then s else dflt
  | None => dflt
  end.

Definition nl : string := String (Ascii.ascii_of_nat 10) EmptyString.

(** ** The environment *)

(** A response stream of the drive API, as seen through the three listeners
    installed on it: its ['data'] chunks in order, then ['end'] or ['error']. *)
Inductive StreamEnd : Type :=
| StreamEnded
| StreamError (e : Error).

Record Stream : Type := mkStream {
  chunks : list string;
  ending : StreamEnd
}.

Record DriveFile : Type := mkDriveFile {
  id : string;
  name : string;
  mimeType : string
}.

Definition Row : Type := list string.

(** Every observable action of the handler, in the order the code issues it. *)
Inductive Event : Type :=
| ConsoleLog (msg : string)
| ConsoleError (msg : string)
| DriveFilesList (q fields : string) (pageSize : option Z)
| DriveFilesExport (fileId exportMimeType : string)
| DriveFilesGetMedia (fileId : string)
| GenerateContent (prompt : string)
| UserinfoGet
| SheetsAppend (range : string) (logEntry : Row)
| SheetsGet (range : string)
| GetToken (code : option string).

Definition is_network (ev : Event) : bool :=
  match ev with
  | ConsoleLog _ | ConsoleError _ => false
  | _ => true
  end.

(** The prompts handed to [model.generateContent], in order. *)
Fixpoint model_prompts (t : list Event) : list string :=
  match t with
  | [] => []
  | GenerateContent p :: t' => p :: model_prompts t'
  | _ :: t' => model_prompts t'
  end.

(** The answers of the collaborators.  [files] of a listing and [values] of a
    sheet read may be missing from the reply ([None]).
    [model_generateContent] stands for lines 89-91 as a whole: the call, its
    [response] and the [text()] read from it, any of which may throw.
    [userinfo_get] gives [data.email], [oauth_getToken] gives
    [tokens.access_token].  [log_time_ISO] is [new Date().toISOString()] at
    the time of logging. *)
Record World : Type := mkWorld {
  drive_files_list : string -> outcome (option (list DriveFile));
  drive_files_export : string -> string -> outcome Stream;
  drive_files_get_media : string -> outcome Stream;
  model_generateContent : string -> outcome string;
  userinfo_get : outcome (option string);
  sheets_values_append : Row -> outcome unit;
  sheets_values_get : outcome (option (list Row));
  oauth_getToken : option string -> outcome (option string);
  Date_now : Z;
  Date_parse : string -> option Z;
  log_time_ISO : string
}.

(** ** Promises with a trace *)

Module Promise.

(** An async computation: the events it produced and how it settled. *)
Definition M (A : Type) : Type := (list Event * outcome A)%type.

Definition ret {A} (a : A) : M A := ([], Resolved a).

Definition throw {A} (e : Error) : M A := ([], Rejected e).

Definition bind {A B} (m : M A) (k : A -> M B) : M B :=
  match m with
  | (t, Resolved a) => let (t', o) := k a in ((t ++ t')%list, o)
  | (t, Rejected e) => (t, Rejected e)
  end.

(** [try { m } catch (e) { h e }], and [m.catch(h)]. *)
Definition catch {A} (m : M A) (h : Error -> M A) : M A :=
  match m with
  | (t, Rejected e) => let (t', o) := h e in ((t ++ t')%list, o)
  | (t, Resolved a) => (t, Resolved a)
  end.

Definition emit (ev : Event) : M unit := ([ev], Resolved tt).

(** An outbound call: record it, then settle as the collaborator says. *)
Definition call {A} (ev : Event) (o : outcome A) : M A := ([ev], o).

Definition trace {A} (m : M A) : list Event := fst m.
Definition settled {A} (m : M A) : outcome A := snd m.

(** [Promise.all] over already started promises: resolves with all values
    in input order, or rejects with the first rejection in input order.
    The events of the members are kept grouped per member; the code does
    not fix their relative order across members. *)
Fixpoint all {A} (ms : list (M A)) : M (list A) :=
  match ms with
  | [] => ret []
  | m :: ms' =>
      match m, all ms' with
      | (t, Resolved a), (t', Resolved l) => ((t ++ t')%list, Resolved (a :: l))
      | (t, Resolved a), (t', Rejected e) => ((t ++ t')%list, Rejected e)
      | (t, Rejected e), (t', _) => ((t ++ t')%list, Rejected e)
      end
  end.

End Promise.

Import Promise.

Declare Scope promise_scope.
Delimit Scope promise_scope with promise.
Notation "x <- m ;; k" := (bind m (fun x => k))
  (at level 61, m at next level, right associativity) : promise_scope.
Notation "m ;;; k" := (bind m (fun _ => k))
  (at level 61, right associativity) : promise_scope.
Local Open Scope promise_scope.

(** ** getDriveFileContent (index.js, lines 8-47) *)

Definition google_doc_mime : string := "application/vnd.google-apps.document".

(** [new Promise((resolve, reject) => ...)] over the stream listeners:
    the chunks are appended to [buf]; ['end'] logs [okmsg] and resolves with
    [buf]; ['error'] rejects. *)
Definition read_stream (s : Stream) (okmsg : string) : M string :=
  match ending s with
  | StreamEnded =>
      emit (ConsoleLog okmsg) ;;;
      ret (fold_left String.append (chunks s) "")
  | StreamError err => throw err
  end.

(** The two [try] blocks [return new Promise(...)] without awaiting it, so
    each block guards only its awaited drive call: the block's value is the
    promise itself ([M string] inside [M]), which the async function adopts
    after the [try] statement is left. *)
Definition getDriveFileContent (w : World) (fileId mimeType fileName : string)
  : M string :=
  emit (ConsoleLog ("[DEBUG] Attempting to read file: " ++ fileName
                    ++ " (ID: " ++ fileId ++ ", Type: " ++ mimeType ++ ")")) ;;;
  if String.eqb mimeType google_doc_mime || String.prefix "text/" mimeType then
    let exportMimeType :=
      if String.eqb mimeType google_doc_mime then "text/plain" else mimeType in
    returned <-
      catch
        (res <- call (DriveFilesExport fileId exportMimeType)
                     (drive_files_export w fileId exportMimeType) ;;
         ret (read_stream res
                ("[DEBUG] Successfully read content from: " ++ fileName)))
        (fun exportError =>
           emit (ConsoleError ("[DEBUG] Export failed for " ++ fileName
                               ++ ". Error: " ++ message exportError
                               ++ ". Trying fallback...")) ;;;
           catch
             (res <- call (DriveFilesGetMedia fileId)
                          (drive_files_get_media w fileId) ;;
              ret (read_stream res
                     ("[DEBUG] Successfully read content from '" ++ fileName
                      ++ "' using fallback.")))
             (fun fallbackError =>
                emit (ConsoleError ("[DEBUG] Fallback failed for " ++ fileName
                                    ++ ". Error: " ++ message fallbackError
                                    ++ ".")) ;;;
                ret (ret ""))) ;;
    returned
  else
    emit (ConsoleLog ("[DEBUG] Skipping unsupported file type: " ++ mimeType
                      ++ " for file: " ++ fileName)) ;;;
    ret "".

(** ** The request and the response *)

Record Request : Type := mkRequest {
  type : option string;
  prompt : option string;
  accessToken : option string;
  code : option string
}.

(** The JSON payloads the handler sends. *)
Inductive Body : Type :=
| ErrorBody (error : string)
| AnswerBody (response : string)
| ReportBody (report : string)
| TokenBody (access_token : option string).

Record Response : Type := mkResponse {
  status : Z;
  body : Body
}.

(** ** Dates (report flow) *)

(** A date's time value; [None] is NaN, the invalid date. *)
Definition DateValue : Type := option Z.

Definition timeClip (t : Z) : DateValue :=
  if Z.abs t <=? 8640000000000000 then Some t else None.

(** [new Date(number)]. *)
Definition new_Date_ms (t : Z) : DateValue := timeClip t.

(** [new Date(row[0])] on a cell that may be missing from the row. *)
Definition new_Date_cell (w : World) (cell : option string) : DateValue :=
  match cell with
  | None => None
  | Some s =>
      match Date_parse w s with
      | Some t => timeClip t
      | None => None
      end
  end.

(** [a > b] on dates: false as soon as one side is NaN. *)
Definition date_gt (a b : DateValue) : bool :=
  match a, b with
  | Some x, Some y => y <? x
  | _, _ => false
  end.

(** ** exports.ask (index.js, lines 49-154) *)

Definition folder_query : string :=
  "name='PeachTreeFiles' and mimeType='application/vnd.google-apps.folder' and trashed=false".

Definition context_delimiter : string := nl ++ nl ++ "---" ++ nl ++ nl.

Definition enhancedPrompt (context : string) (prompt : option string) : string :=
  "Based on the following context, please answer the user's question. If the context does not contain the answer, say so."
  ++ nl ++ nl ++ "CONTEXT:" ++ nl ++ "---" ++ nl ++ context ++ nl ++ "---"
  ++ nl ++ nl ++ "QUESTION: " ++ interp prompt.

Definition report_intro : string :=
  "As an operations analyst for a Virtual Assistant company, review the following list of questions asked by our VAs over the last week. Generate a brief, professional report for management. The report should identify 2-3 key themes or common areas of confusion, point out potential gaps in our training or documentation, and suggest specific, actionable improvements."
  ++ nl ++ nl ++ "Questions Asked This Week:" ++ nl.

Definition empty_sheet_message : string :=
  "The log sheet is empty or only contains a header. No report to generate.".

Definition no_questions_message : string :=
  "No questions have been asked in the last 7 days.".

Definition backend_error_message : string :=
  "Something went wrong on the backend.".

(** [getDriveFileContent(...).catch(e => '')], one promise per listed file. *)
Definition contentPromises (w : World) (files : list DriveFile) : list (M string) :=
  map (fun file =>
         catch (getDriveFileContent w (id file) (mimeType file) (name file))
               (fun _ => ret ""))
      files.

(** Lines 64-85: the value of [context] when line 87 is reached. *)
Definition gemini_context (w : World) : M string :=
  folderResponse <- call (DriveFilesList folder_query "files(id)" (Some 1))
                         (drive_files_list w folder_query) ;;
  match folderResponse with
  | Some (folder :: _) =>
      let folderId := id folder in
      let q := "'" ++ folderId ++ "' in parents and trashed=false" in
      filesResponse <- call (DriveFilesList q "files(id, name, mimeType)" None)
                            (drive_files_list w q) ;;
      match filesResponse with
      | Some ((_ :: _) as files) =>
          allContents <- all (contentPromises w files) ;;
          ret (String.concat context_delimiter (filter truthy allContents))
      | _ => ret ""
      end
  | _ => ret ""
  end.

(** Lines 93-103: the logging block with its own [try]/[catch]. *)
Definition log_question (w : World) (prompt : option string) : M unit :=
  catch
    (userInfo <- call UserinfoGet (userinfo_get w) ;;
     let userEmail := or_default userInfo "unknown" in
     let logEntry := [log_time_ISO w; userEmail; interp prompt] in
     call (SheetsAppend "A1" logEntry) (sheets_values_append w logEntry))
    (fun logError =>
       emit (ConsoleError ("Failed to log question to Google Sheet: "
                           ++ message logError))).

Definition sevenDaysAgo (w : World) : DateValue :=
  new_Date_ms (Date_now w - 7 * 24 * 60 * 60 * 1000).

(** The predicate of the [filter] of line 122. *)
Definition is_recent (w : World) (row : Row) : bool :=
  let timestamp := new_Date_cell w (nth_error row 0) in
  date_gt timestamp (sevenDaysAgo w).

(** Lines 121-125. *)
Definition recentQuestions (w : World) (rows : list Row) : list string :=
  map (fun row => "- " ++ interp (nth_error row 2))
      (filter (is_recent w) (tl rows)).

(** The body of the [try] block.  Building the OAuth client and setting its
    credentials (lines 54-57) and building the drive and sheets clients are
    local constructions: they make no call and leave no event. *)
Definition ask_try (w : World) (req : Request) : M Response :=
  if strict_eq (type req) "gemini" then
    if falsy (prompt req) || falsy (accessToken req) then
      ret (mkResponse 400 (ErrorBody "A prompt and access token are required."))
    else
      context <- gemini_context w ;;
      let p := enhancedPrompt context (prompt req) in
      answer <- call (GenerateContent p) (model_generateContent w p) ;;
      log_question w (prompt req) ;;;
      ret (mkResponse 200 (AnswerBody answer))
  else if strict_eq (type req) "report" then
    if falsy (accessToken req) then
      ret (mkResponse 400 (ErrorBody "Access token required."))
    else
      rows <- call (SheetsGet "Sheet1!A:C") (sheets_values_get w) ;;
      match rows with
      | None => ret (mkResponse 200 (ReportBody empty_sheet_message))
      | Some rows =>
          if (length rows <=? 1)%nat then
            ret (mkResponse 200 (ReportBody empty_sheet_message))
          else
            let recent := recentQuestions w rows in
            if (length recent =? 0)%nat then
              ret (mkResponse 200 (ReportBody no_questions_message))
            else
              let questionsText := String.concat nl recent in
              let reportPrompt := report_intro ++ questionsText in
              reportText <- call (GenerateContent reportPrompt)
                                 (model_generateContent w reportPrompt) ;;
              ret (mkResponse 200 (ReportBody reportText))
      end
  else if strict_eq (type req) "token" then
    if falsy (code req) then
      ret (mkResponse 400 (ErrorBody "A code is required."))
    else
      tokens <- call (GetToken (code req)) (oauth_getToken w (code req)) ;;
      ret (mkResponse 200 (TokenBody tokens))
  else
    ret (mkResponse 400 (ErrorBody "A valid request type was not provided.")).

Definition internal_error : Response :=
  mkResponse 500 (ErrorBody backend_error_message).

(** The handler, that is the callback handed to the CORS middleware: the
    [try] block under the top-level [catch] of line 149.  Returns the trace
    of the request and the response sent. *)
Definition ask (w : World) (req : Request) : list Event * Response :=
  match ask_try w req with
  | (t, Resolved r) => (t, r)
  | (t, Rejected error) =>
      ((t ++ [ConsoleError ("An error occurred: " ++ message error)])%list,
       internal_error)
  end.

Definition response_of (w : World) (req : Request) : Response := snd (ask w req).
Definition trace_of (w : World) (req : Request) : list Event := fst (ask w req).

(** * Specification vocabulary

    The notions the properties below are stated with, and the sample
    environment they are instantiated on. *)

Definition network_calls (t : list Event) : list Event := filter is_network t.

(** What a stream hands to the promise built around it. *)
Definition stream_result (s : Stream) : outcome string :=
  match ending s with
  | StreamEnded => Resolved (fold_left String.append (chunks s) "")
  | StreamError e => Rejected e
  end.

(** The helper as the specification words it: which calls go out for a MIME
    type, and what is produced. *)
Definition export_with_fallback (w : World) (fileId exportMimeType : string)
  : list Event * outcome string :=
  match drive_files_export w fileId exportMimeType with
  | Resolved s => ([DriveFilesExport fileId exportMimeType], stream_result s)
  | Rejected _ =>
      match drive_files_get_media w fileId with
      | Resolved s =>
          ([DriveFilesExport fileId exportMimeType; DriveFilesGetMedia fileId],
           stream_result s)
      | Rejected _ =>
          ([DriveFilesExport fileId exportMimeType; DriveFilesGetMedia fileId],
           Resolved "")
      end
  end.

Definition extraction_contract (w : World) (fileId mimeType : string)
  : list Event * outcome string :=
  if String.eqb mimeType google_doc_mime then
    export_with_fallback w fileId "text/plain"
  else if String.prefix "text/" mimeType then
    export_with_fallback w fileId mimeType
  else
    ([], Resolved "").

(** The one way the helper's promise rejects: the stream it reads, from the
    export or from the fallback download after a failed export call, emits
    ['error']. *)
Inductive reads_broken_stream (w : World) (fileId mimeType : string) (e : Error)
  : Prop :=
| broken_export (s : Stream) :
    String.eqb mimeType google_doc_mime || String.prefix "text/" mimeType = true ->
    drive_files_export w fileId
      (if String.eqb mimeType google_doc_mime then "text/plain" else mimeType)
      = Resolved s ->
    ending s = StreamError e ->
    reads_broken_stream w fileId mimeType e
| broken_fallback (exportError : Error) (s : Stream) :
    String.eqb mimeType google_doc_mime || String.prefix "text/" mimeType = true ->
    drive_files_export w fileId
      (if String.eqb mimeType google_doc_mime then "text/plain" else mimeType)
      = Rejected exportError ->
    drive_files_get_media w fileId = Resolved s ->
    ending s = StreamError e ->
    reads_broken_stream w fileId mimeType e.

(** A drive whose export of file [f1] starts streaming and then breaks. *)
Definition broken_stream_world : World :=
  mkWorld (fun _ => Resolved None)
          (fun _ _ => Resolved (mkStream ["par"; "tial"]
                                         (StreamError (mkError "aborted"))))
          (fun _ => Rejected (mkError "not found"))
          (fun _ => Resolved "answer")
          (Resolved None)
          (fun _ => Resolved tt)
          (Resolved None)
          (fun _ => Resolved None)
          1704700000000
          (fun _ => None)
          "2024-01-08T07:46:40.000Z".

(** The text extracted from a file, when its extraction succeeds. *)
Definition extraction (w : World) (file : DriveFile) : option string :=
  match settled (getDriveFileContent w (id file) (mimeType file) (name file)) with
  | Resolved text => Some text
  | Rejected _ => None
  end.

(** What a file adds to the context: its text when the extraction succeeds
    with a non-empty text, nothing otherwise. *)
Definition contribution (w : World) (file : DriveFile) : list string :=
  match extraction w file with
  | Some text => if truthy text then [text] else []
  | None => []
  end.

Definition contributions (w : World) (files : list DriveFile) : list string :=
  flat_map (contribution w) files.

Definition children_query (folderId : string) : string :=
  "'" ++ folderId ++ "' in parents and trashed=false".

(** The children the two listings give for the well-known folder: none when
    the folder lookup finds nothing or the children listing has no [files]. *)
Inductive listed_children (w : World) : list DriveFile -> Prop :=
| folder_absent (folders : option (list DriveFile)) :
    drive_files_list w folder_query = Resolved folders ->
    folders = None \/ folders = Some [] ->
    listed_children w []
| children_absent (folder : DriveFile) (others : list DriveFile) :
    drive_files_list w folder_query = Resolved (Some (folder :: others)) ->
    drive_files_list w (children_query (id folder)) = Resolved None ->
    listed_children w []
| children_listed (folder : DriveFile) (others files : list DriveFile) :
    drive_files_list w folder_query = Resolved (Some (folder :: others)) ->
    drive_files_list w (children_query (id folder)) = Resolved (Some files) ->
    listed_children w files.

(** A request that passes the guard of the gemini branch. *)
Definition gemini_request (req : Request) : Prop :=
  type req = Some "gemini"
  /\ falsy (prompt req) = false
  /\ falsy (accessToken req) = false.

Definition content_or_empty (w : World) (file : DriveFile) : string :=
  match extraction w file with
  | Some text => text
  | None => ""
  end.

(** A folder [F] holding a text file, a PDF and a native document whose
    export call fails while its raw download works; the identity lookup of
    the logging step fails; four rows in the log sheet. *)
Definition sample_files : list DriveFile :=
  [ mkDriveFile "a" "A.txt" "text/plain";
    mkDriveFile "b" "B.pdf" "application/pdf";
    mkDriveFile "c" "C" google_doc_mime ].

Definition sample_rows : list Row :=
  [ ["2024-01-08T00:00:00.000Z"; "va@example.com"; "first question"];
    ["2024-01-08T00:00:00.000Z"; "va@example.com"; "second question"];
    [];
    ["yesterday"; "va@example.com"; "third question"];
    ["2023-01-01T00:00:00.000Z"; "va@example.com"; "old question"] ].

Definition sample_world : World :=
  mkWorld
    (fun q => if String.eqb q folder_query
              then Resolved (Some [mkDriveFile "F" "" ""])
              else Resolved (Some sample_files))
    (fun fileId _ => if String.eqb fileId "a"
                     then Resolved (mkStream ["x"] StreamEnded)
                     else Rejected (mkError "export refused"))
    (fun _ => Resolved (mkStream ["y"] StreamEnded))
    (fun _ => Resolved "answer")
    (Rejected (mkError "no identity"))
    (fun _ => Resolved tt)
    (Resolved (Some sample_rows))
    (fun _ => Rejected (mkError "invalid_grant"))
    1704700000000
    (fun s => if String.eqb s "2024-01-08T00:00:00.000Z" then Some 1704672000000
              else if String.eqb s "2023-01-01T00:00:00.000Z" then Some 1672531200000
              else None)
    "2024-01-08T07:46:40.000Z".

Definition sample_gemini_request : Request :=
  mkRequest (Some "gemini") (Some "Where is the handbook?") (Some "ya29.token") None.

(** The world [w] with other answers to the two calls of the logging step. *)
Definition with_logging (w : World) (identity : outcome (option string))
  (append : Row -> outcome unit) : World :=
  mkWorld (drive_files_list w) (drive_files_export w) (drive_files_get_media w)
          (model_generateContent w) identity append
          (sheets_values_get w) (oauth_getToken w)
          (Date_now w) (Date_parse w) (log_time_ISO w).

Definition report_request (req : Request) : Prop :=
  type req = Some "report" /\ falsy (accessToken req) = false.

Definition token_request (req : Request) : Prop :=
  type req = Some "token" /\ falsy (code req) = false.

Definition report_range : string := "Sheet1!A:C".

(** Seven days, in milliseconds. *)
Definition week_ms : Z := 604800000.

(** The clock reading of [Date.now()], minus seven days, is a time value of
    the language (at most 8.64e15 ms from the epoch). *)
Definition clock_in_range (w : World) : Prop :=
  Z.abs (Date_now w - week_ms) <= 8640000000000000.

(** The row's column 0 parses as a date strictly after now minus 7 days. *)
Definition in_window (w : World) (row : Row) : Prop :=
  exists t : Z,
    new_Date_cell w (nth_error row 0) = Some t /\ Date_now w - week_ms < t.

(** [kept] holds the rows of [rows] that satisfy [P], each once, in the
    order of [rows]. *)
Inductive selected (P : Row -> Prop) : list Row -> list Row -> Prop :=
| selected_nil : selected P [] []
| selected_keep (row : Row) (rows kept : list Row) :
    P row -> selected P rows kept -> selected P (row :: rows) (row :: kept)
| selected_skip (row : Row) (rows kept : list Row) :
    ~ P row -> selected P rows kept -> selected P (row :: rows) kept.

(** The bullet line of a row, built from its column 2. *)
Definition bullet (row : Row) : string := "- " ++ interp (nth_error row 2).

(** The rows that survive the filter of line 122. *)
Definition recent_rows (w : World) (rows : list Row) : list Row :=
  filter (is_recent w) (tl rows).

Definition sample_report_request : Request :=
  mkRequest (Some "report") None (Some "ya29.token") None.

(** The world [w] with another content of the log sheet. *)
Definition with_rows (w : World) (values : option (list Row)) : World :=
  mkWorld (drive_files_list w) (drive_files_export w) (drive_files_get_media w)
          (model_generateContent w) (userinfo_get w) (sheets_values_append w)
          (Resolved values) (oauth_getToken w)
          (Date_now w) (Date_parse w) (log_time_ISO w).

(** The failures that are neither a rejected input nor swallowed by the
    logging step or by the per-file [.catch]: an outbound call of the main
    path rejects with [e]. *)
Inductive propagating_failure (w : World) (req : Request) (e : Error) : Prop :=
| folder_lookup_fails :
    gemini_request req ->
    drive_files_list w folder_query = Rejected e ->
    propagating_failure w req e
| children_listing_fails (folder : DriveFile) (others : list DriveFile) :
    gemini_request req ->
    drive_files_list w folder_query = Resolved (Some (folder :: others)) ->
    drive_files_list w (children_query (id folder)) = Rejected e ->
    propagating_failure w req e
| answer_fails (context : string) :
    gemini_request req ->
    settled (gemini_context w) = Resolved context ->
    model_generateContent w (enhancedPrompt context (prompt req)) = Rejected e ->
    propagating_failure w req e
| sheet_read_fails :
    report_request req ->
    sheets_values_get w = Rejected e ->
    propagating_failure w req e
| report_fails (rows : list Row) :
    report_request req ->
    sheets_values_get w = Resolved (Some rows) ->
    recent_rows w rows <> [] ->
    model_generateContent w
      (report_intro ++ String.concat nl (map bullet (recent_rows w rows)))
      = Rejected e ->
    propagating_failure w req e
| token_exchange_fails :
    token_request req ->
    oauth_getToken w (code req) = Rejected e ->
    propagating_failure w req e.

Definition sample_token_request : Request :=
  mkRequest (Some "token") None None (Some "4/0AfJohXk").

(** ** Vocabulary of the further properties *)

(** Line 11: the MIME types the helper reads. *)
Definition supported_mime (mimeType : string) : bool :=
  String.eqb mimeType google_doc_mime || String.prefix "text/" mimeType.

(** Line 12: the MIME type the export is asked for. *)
Definition export_type (mimeType : string) : string :=
  if String.eqb mimeType google_doc_mime then "text/plain" else mimeType.

Definition is_listing (ev : Event) : bool :=
  match ev with DriveFilesList _ _ _ => true | _ => false end.

Definition is_export (ev : Event) : bool :=
  match ev with DriveFilesExport _ _ => true | _ => false end.

Definition is_download (ev : Event) : bool :=
  match ev with DriveFilesGetMedia _ => true | _ => false end.

Definition is_drive_call (ev : Event) : bool :=
  is_listing ev || is_export ev || is_download ev.

Definition is_drive_or_console (ev : Event) : bool :=
  is_drive_call ev || negb (is_network ev).

(** The two listings of lines 66-69 and 73-76. *)
Definition folder_listing : Event :=
  DriveFilesList folder_query "files(id)" (Some 1).

Definition children_listing (folderId : string) : Event :=
  DriveFilesList (children_query folderId) "files(id, name, mimeType)" None.

(** The flow an outbound call belongs to; console output belongs to all. *)
Definition event_of_flow (req : Request) (ev : Event) : Prop :=
  match ev with
  | ConsoleLog _ | ConsoleError _ => True
  | DriveFilesList _ _ _ | DriveFilesExport _ _ | DriveFilesGetMedia _
  | UserinfoGet | SheetsAppend _ _ => type req = Some "gemini"
  | GenerateContent _ => type req = Some "gemini" \/ type req = Some "report"
  | SheetsGet _ => type req = Some "report"
  | GetToken _ => type req = Some "token"
  end.

(** The trace of the extraction of one listed file. *)
Definition file_trace (w : World) (file : DriveFile) : list Event :=
  trace (getDriveFileContent w (id file) (mimeType file) (name file)).

(** A file whose export call is attempted and rejected. *)
Definition export_refused (w : World) (file : DriveFile) : bool :=
  supported_mime (mimeType file)
  && match drive_files_export w (id file) (export_type (mimeType file)) with
     | Rejected _ => true
     | Resolved _ => false
     end.

(** A drive that lists [sample_files] but refuses every export and every
    download. *)
Definition refusing_drive_world : World :=
  mkWorld (drive_files_list sample_world)
          (fun _ _ => Rejected (mkError "export refused"))
          (fun _ => Rejected (mkError "download refused"))
          (model_generateContent sample_world) (userinfo_get sample_world)
          (sheets_values_append sample_world)
          (sheets_values_get sample_world) (oauth_getToken sample_world)
          (Date_now sample_world) (Date_parse sample_world)
          (log_time_ISO sample_world).

(** * Properties *)

(** ** The promise combinators *)

Section PromiseLemmas.

Context {A B : Type}.

Lemma settled_bind (m : M A) (k : A -> M B) :
  settled (bind m k) =
  match settled m with
  | Resolved a => settled (k a)
  | Rejected e => Rejected e
  end.
Proof.
  destruct m as [t [a | e]]; simpl; [destruct (k a) |]; reflexivity.
Qed.

Lemma trace_bind (m : M A) (k : A -> M B) :
  trace (bind m k) =
  match settled m with
  | Resolved a => (trace m ++ trace (k a))%list
  | Rejected _ => trace m
  end.
Proof.
  destruct m as [t [a | e]]; simpl; [destruct (k a) |]; reflexivity.
Qed.

Lemma settled_catch (m : M A) (h : Error -> M A) :
  settled (catch m h) =
  match settled m with
  | Resolved a => Resolved a
  | Rejected e => settled (h e)
  end.
Proof.
  destruct m as [t [a | e]]; simpl; [| destruct (h e)]; reflexivity.
Qed.

Lemma trace_catch (m : M A) (h : Error -> M A) :
  trace (catch m h) =
  match settled m with
  | Resolved _ => trace m
  | Rejected e => (trace m ++ trace (h e))%list
  end.
Proof.
  destruct m as [t [a | e]]; simpl; [| destruct (h e)]; reflexivity.
Qed.

End PromiseLemmas.

Lemma model_prompts_app (t t' : list Event) :
  model_prompts (t ++ t') = (model_prompts t ++ model_prompts t')%list.
Proof.
  induction t as [| ev t IH]; [reflexivity |].
  destruct ev; simpl; rewrite IH; reflexivity.
Qed.

(** ** The extraction helper *)

(** Case analysis on the MIME type, on the two drive calls and on the way
    the stream ends. *)
Ltac helper_cases :=
  unfold getDriveFileContent, extraction_contract, export_with_fallback;
  match goal with
  | |- context [String.eqb ?m google_doc_mime] =>
      destruct (String.eqb m google_doc_mime); simpl orb; cbv iota;
      [| destruct (String.prefix "text/" m)]
  end;
  unfold call, catch, bind, emit, ret, throw, read_stream, stream_result,
    trace, settled;
  repeat match goal with
    | |- context [drive_files_export ?w ?i ?m] =>
        destruct (drive_files_export w i m)
    | |- context [drive_files_get_media ?w ?i] =>
        destruct (drive_files_get_media w i)
    | |- context [ending ?s] => destruct (ending s)
    end;
  try reflexivity.

Lemma getDriveFileContent_settled (w : World) (fileId mimeType fileName : string) :
  settled (getDriveFileContent w fileId mimeType fileName)
  = snd (extraction_contract w fileId mimeType).
Proof. helper_cases. Qed.

Lemma getDriveFileContent_no_model_call
  (w : World) (fileId mimeType fileName : string) :
  model_prompts (trace (getDriveFileContent w fileId mimeType fileName)) = [].
Proof. helper_cases. Qed.

(** C4.  For every file identifier, MIME type and file name, the network
    calls issued by [getDriveFileContent], in order, and the way its promise
    settles are those of [extraction_contract]: a provider-native document is
    exported as [text/plain]; any other type starting with [text/] is
    exported with that same type; every other type issues no network call
    and yields the empty string; when the export call fails, the raw-media
    download of the same file is the one further call, and the empty string
    is produced when that call fails too. *)
Theorem getDriveFileContent_follows_contract
  (w : World) (fileId mimeType fileName : string) :
  (network_calls (trace (getDriveFileContent w fileId mimeType fileName)),
   settled (getDriveFileContent w fileId mimeType fileName))
  = extraction_contract w fileId mimeType.
Proof. helper_cases. Qed.

(** ** Rejections of the helper *)

(** C5, as stated, fails: on a text file whose export stream emits ['error']
    the helper's promise does not produce a string, it rejects. *)
Lemma getDriveFileContent_can_reject :
  settled (getDriveFileContent broken_stream_world "f1" "text/plain" "notes.txt")
  = Rejected (mkError "aborted")
  /\ ~ (exists text : string,
          settled (getDriveFileContent broken_stream_world
                     "f1" "text/plain" "notes.txt") = Resolved text).
Proof.
  split; [reflexivity |].
  intros [text H]. discriminate H.
Qed.

(** C5, amended.  For every input the helper's promise resolves with a
    string or rejects, and it rejects with [e] exactly when the stream it
    reads emits the error [e]; failures of the export and download calls
    themselves never reject it.  Behind the [.catch(e => '')] of the call
    site in [ask] the promise always resolves: with the helper's string, or
    with the empty string when the helper rejected. *)
Theorem getDriveFileContent_rejects_only_on_stream_error
  (w : World) (fileId mimeType fileName : string) :
  (forall e : Error,
      settled (getDriveFileContent w fileId mimeType fileName) = Rejected e
      <-> reads_broken_stream w fileId mimeType e)
  /\ (exists text : string,
        settled (catch (getDriveFileContent w fileId mimeType fileName)
                       (fun _ => ret "")) = Resolved text
        /\ (settled (getDriveFileContent w fileId mimeType fileName)
              = Resolved text
            \/ (text = ""
                /\ exists e, settled (getDriveFileContent w fileId mimeType fileName)
                             = Rejected e))).
Proof.
  split.
  - intros e. rewrite getDriveFileContent_settled.
    unfold extraction_contract, export_with_fallback. split.
    + destruct (String.eqb mimeType google_doc_mime) eqn:Hdoc.
      * destruct (drive_files_export w fileId "text/plain") as [s | e1] eqn:Hx.
        -- unfold stream_result; simpl. destruct (ending s) eqn:Hs; intros H;
             [discriminate | injection H as ->].
           apply broken_export with s; rewrite ?Hdoc; auto.
        -- destruct (drive_files_get_media w fileId) as [s | e2] eqn:Hg;
             [| discriminate].
           unfold stream_result; simpl. destruct (ending s) eqn:Hs; intros H;
             [discriminate | injection H as ->].
           apply broken_fallback with e1 s; rewrite ?Hdoc; auto.
      * destruct (String.prefix "text/" mimeType) eqn:Htext; [| discriminate].
        destruct (drive_files_export w fileId mimeType) as [s | e1] eqn:Hx.
        -- unfold stream_result; simpl. destruct (ending s) eqn:Hs; intros H;
             [discriminate | injection H as ->].
           apply broken_export with s; rewrite ?Hdoc, ?Htext; auto.
        -- destruct (drive_files_get_media w fileId) as [s | e2] eqn:Hg;
             [| discriminate].
           unfold stream_result; simpl. destruct (ending s) eqn:Hs; intros H;
             [discriminate | injection H as ->].
           apply broken_fallback with e1 s; rewrite ?Hdoc, ?Htext; auto.
    + intros [s Hsup Hx Hs | e1 s Hsup Hx Hg Hs];
        destruct (String.eqb mimeType google_doc_mime);
        simpl in Hsup; rewrite ?Hsup, Hx, ?Hg; unfold stream_result;
        rewrite Hs; reflexivity.
  - rewrite settled_catch.
    destruct (settled (getDriveFileContent w fileId mimeType fileName))
      as [text | e].
    + exists text. split; [reflexivity | left; reflexivity].
    + exists "". split; [reflexivity | right; split; [reflexivity | exists e; reflexivity]].
Qed.

(** ** The gemini flow: assembling the context *)

Lemma contentPromise_settled (w : World) (file : DriveFile) :
  settled (catch (getDriveFileContent w (id file) (mimeType file) (name file))
                 (fun _ => ret ""))
  = Resolved (content_or_empty w file).
Proof.
  rewrite settled_catch. unfold content_or_empty, extraction.
  destruct (settled (getDriveFileContent w (id file) (mimeType file) (name file)));
    reflexivity.
Qed.

Lemma contentPromise_no_model_call (w : World) (file : DriveFile) :
  model_prompts
    (trace (catch (getDriveFileContent w (id file) (mimeType file) (name file))
                  (fun _ => ret ""))) = [].
Proof.
  rewrite trace_catch.
  destruct (settled (getDriveFileContent w (id file) (mimeType file) (name file)));
    rewrite ?model_prompts_app, getDriveFileContent_no_model_call; reflexivity.
Qed.

Lemma all_contentPromises (w : World) (files : list DriveFile) :
  settled (all (contentPromises w files)) = Resolved (map (content_or_empty w) files)
  /\ model_prompts (trace (all (contentPromises w files))) = [].
Proof.
  induction files as [| file files [IHs IHt]]; [split; reflexivity |].
  unfold contentPromises in *. cbn [map all].
  pose proof (contentPromise_settled w file) as Hs.
  pose proof (contentPromise_no_model_call w file) as Ht.
  destruct (catch (getDriveFileContent w (id file) (mimeType file) (name file))
                  (fun _ => ret "")) as [t o].
  simpl in Hs, Ht. subst o.
  destruct (all (map _ files)) as [t' o'].
  simpl in IHs, IHt. subst o'. simpl.
  rewrite model_prompts_app, Ht, IHt. split; reflexivity.
Qed.

Lemma filter_truthy_contents (w : World) (files : list DriveFile) :
  filter truthy (map (content_or_empty w) files) = contributions w files.
Proof.
  induction files as [| file files IH]; [reflexivity |].
  cbn [map filter contributions flat_map]. fold (contributions w files).
  rewrite IH. unfold content_or_empty, contribution.
  destruct (extraction w file) as [text |]; [destruct (truthy text) |];
    reflexivity.
Qed.

Lemma gemini_context_settled (w : World) (files : list DriveFile) :
  listed_children w files ->
  settled (gemini_context w)
  = Resolved (String.concat context_delimiter (contributions w files)).
Proof.
  intros H. unfold gemini_context. rewrite settled_bind. unfold call at 1.
  cbn [settled snd].
  destruct H as [folders Hf Hnone | folder others Hf Hc | folder others files Hf Hc];
    rewrite Hf.
  - destruct Hnone as [-> | ->]; reflexivity.
  - fold (children_query (id folder)). rewrite settled_bind.
    unfold call. cbn [settled snd]. rewrite Hc. reflexivity.
  - fold (children_query (id folder)). rewrite settled_bind.
    unfold call at 1. cbn [settled snd]. rewrite Hc.
    destruct files as [| file files]; [reflexivity |].
    rewrite settled_bind.
    destruct (all_contentPromises w (file :: files)) as [-> _].
    cbn [settled ret snd]. rewrite filter_truthy_contents. reflexivity.
Qed.

Lemma gemini_context_no_model_call (w : World) :
  model_prompts (trace (gemini_context w)) = [].
Proof.
  unfold gemini_context. rewrite trace_bind. unfold call at 1 2.
  cbn [settled trace fst snd].
  destruct (drive_files_list w folder_query) as [[[| folder others] |] | e];
    try reflexivity.
  rewrite model_prompts_app. cbn [model_prompts app].
  rewrite trace_bind. unfold call at 1 2. cbn [settled trace fst snd].
  destruct (drive_files_list w _) as [[[| file files] |] | e];
    try reflexivity.
  rewrite model_prompts_app. cbn [model_prompts app].
  rewrite trace_bind.
  destruct (all_contentPromises w (file :: files)) as [Hs Ht].
  rewrite Hs, model_prompts_app, Ht. reflexivity.
Qed.

Lemma log_question_settles (w : World) (p : option string) :
  settled (log_question w p) = Resolved tt
  /\ model_prompts (trace (log_question w p)) = [].
Proof.
  unfold log_question, catch, bind, call, emit, settled, trace.
  destruct (userinfo_get w) as [email | e]; [| split; reflexivity].
  destruct (sheets_values_append w _) as [[] | e]; split; reflexivity.
Qed.

(** The trace and the answer of a well-formed gemini request, from the way
    the context and the model call settle. *)
Lemma ask_gemini (w : World) (req : Request) :
  gemini_request req ->
  ask w req =
  match settled (gemini_context w) with
  | Resolved context =>
      let p := enhancedPrompt context (prompt req) in
      match model_generateContent w p with
      | Resolved answer =>
          ((trace (gemini_context w) ++ GenerateContent p
              :: trace (log_question w (prompt req)))%list,
           mkResponse 200 (AnswerBody answer))
      | Rejected e =>
          ((trace (gemini_context w) ++ [GenerateContent p]
              ++ [ConsoleError ("An error occurred: " ++ message e)])%list,
           internal_error)
      end
  | Rejected e =>
      ((trace (gemini_context w)
          ++ [ConsoleError ("An error occurred: " ++ message e)])%list,
       internal_error)
  end.
Proof.
  intros (Ht & Hp & Ha). unfold ask, ask_try.
  rewrite Ht, Hp, Ha. cbn [strict_eq String.eqb Ascii.eqb Bool.eqb orb].
  destruct (gemini_context w) as [t [context | e]]; cbn [settled snd trace fst];
    [| reflexivity].
  unfold bind at 1. 
  destruct (log_question_settles w (prompt req)) as [Hl _].
  unfold call. 
  destruct (model_generateContent w _) as [answer | e]; cbn.
  - destruct (log_question w (prompt req)) as [tl o]. simpl in Hl. subst o.
    cbn. rewrite app_nil_r. reflexivity.
  - rewrite <- app_assoc. reflexivity.
Qed.

Lemma contributions_app (w : World) (l1 l2 : list DriveFile) :
  contributions w (l1 ++ l2) = (contributions w l1 ++ contributions w l2)%list.
Proof. unfold contributions. apply flat_map_app. Qed.

Lemma contributions_all_failed (w : World) (files : list DriveFile) :
  (forall file, In file files -> extraction w file = None) ->
  contributions w files = [].
Proof.
  induction files as [| file files IH]; intros H; [reflexivity |].
  cbn [contributions flat_map]. fold (contributions w files).
  unfold contribution at 1. rewrite (H file (or_introl eq_refl)).
  apply IH. intros f Hf. apply H. right. exact Hf.
Qed.

(** C1.  In the gemini flow, for every listed set [files] of folder
    children, the context is the join, by the fixed delimiter, of the
    non-empty successful extractions in listing order, and the model is
    asked exactly once, with the prompt built around that context.  A file
    whose extraction fails or yields the empty string can be dropped from the
    listing without changing the context.  The context is empty when the
    listing is empty (folder absent, or no children) and when every
    extraction fails. *)
Theorem context_joins_contributions (w : World) (files : list DriveFile) :
  listed_children w files ->
  let context := String.concat context_delimiter (contributions w files) in
  settled (gemini_context w) = Resolved context
  /\ (forall req, gemini_request req ->
        model_prompts (trace_of w req) = [enhancedPrompt context (prompt req)])
  /\ (forall before file after,
        files = (before ++ file :: after)%list ->
        extraction w file = None \/ extraction w file = Some "" ->
        context
        = String.concat context_delimiter (contributions w (before ++ after)))
  /\ (files = [] -> context = "")
  /\ ((forall file, In file files -> extraction w file = None) -> context = "").
Proof.
  intros Hl context. pose proof (gemini_context_settled Hl) as Hs.
  fold context in Hs. repeat split.
  - exact Hs.
  - intros req Hreq. unfold trace_of. rewrite (ask_gemini w Hreq), Hs.
    cbv zeta.
    destruct (model_generateContent w _) as [answer | e]; cbn [fst];
      rewrite model_prompts_app, gemini_context_no_model_call; cbn.
    + destruct (log_question_settles w (prompt req)) as [_ ->]. reflexivity.
    + reflexivity.
  - intros before file after -> Hfile. unfold context.
    rewrite !contributions_app. cbn [contributions flat_map].
    assert (contribution w file = []) as ->; [| reflexivity].
    unfold contribution. destruct Hfile as [-> | ->]; reflexivity.
  - intros ->. reflexivity.
  - intros Hall. unfold context. rewrite contributions_all_failed by exact Hall.
    reflexivity.
Qed.

Lemma sample_listing : listed_children sample_world sample_files.
Proof. eapply children_listed; reflexivity. Defined.

Lemma context_joins_contributions_witness :
  listed_children sample_world sample_files
  /\ settled (gemini_context sample_world)
     = Resolved ("x" ++ context_delimiter ++ "y").
Proof.
  split; [exact sample_listing |].
  exact (proj1 (context_joins_contributions sample_listing)).
Defined.

(** ** The gemini flow: logging *)

(** C6.  Once the model has answered a gemini request, the response is 200
    with [{ response: answer }] whatever the identity lookup and the
    spreadsheet append of the logging step do, fail or succeed. *)
Theorem logging_never_changes_response
  (w : World) (req : Request) (context answer : string) :
  gemini_request req ->
  settled (gemini_context w) = Resolved context ->
  model_generateContent w (enhancedPrompt context (prompt req)) = Resolved answer ->
  forall (identity : outcome (option string)) (append : Row -> outcome unit),
    response_of (with_logging w identity append) req
    = mkResponse 200 (AnswerBody answer)
    /\ response_of (with_logging w identity append) req = response_of w req.
Proof.
  intros Hreq Hctx Hmodel identity append.
  assert (Hw : response_of w req = mkResponse 200 (AnswerBody answer)).
  { unfold response_of. rewrite (ask_gemini w Hreq), Hctx. cbv zeta.
    rewrite Hmodel. reflexivity. }
  assert (Hw' : response_of (with_logging w identity append) req
                = mkResponse 200 (AnswerBody answer)).
  { unfold response_of. rewrite (ask_gemini _ Hreq).
    change (gemini_context (with_logging w identity append))
      with (gemini_context w).
    rewrite Hctx. cbv zeta.
    change (model_generateContent (with_logging w identity append))
      with (model_generateContent w).
    rewrite Hmodel. reflexivity. }
  split; [exact Hw' | congruence].
Qed.

Lemma logging_never_changes_response_witness :
  response_of (with_logging sample_world (Resolved (Some "va@example.com"))
                 (fun _ => Rejected (mkError "quota exceeded")))
              sample_gemini_request
  = mkResponse 200 (AnswerBody "answer").
Proof.
  refine (proj1 (@logging_never_changes_response sample_world
                   sample_gemini_request ("x" ++ context_delimiter ++ "y")
                   "answer" _ _ _ _ _)).
  - repeat split.
  - reflexivity.
  - reflexivity.
Defined.

(** ** Request validation *)

Lemma strict_eq_other (v : option string) (lit : string) :
  v <> Some lit -> strict_eq v lit = false.
Proof.
  destruct v as [s |]; [| reflexivity]. intros H. simpl.
  apply String.eqb_neq. congruence.
Qed.

Lemma status_400_of_try (w : World) (req : Request) (msg : string) :
  ask_try w req = ret (mkResponse 400 (ErrorBody msg)) ->
  status (response_of w req) = 400 /\ trace_of w req = [].
Proof.
  unfold response_of, trace_of, ask. intros ->. split; reflexivity.
Qed.

(** C2.  A gemini request without [prompt] or without [accessToken], a
    report request without [accessToken], a token request without [code],
    and a request whose [type] is absent or none of the three known values
    are all answered with status 400. *)
Theorem missing_field_or_type_is_400 (w : World) (req : Request) :
  (type req = Some "gemini" /\ (prompt req = None \/ accessToken req = None))
  \/ (type req = Some "report" /\ accessToken req = None)
  \/ (type req = Some "token" /\ code req = None)
  \/ (type req <> Some "gemini" /\ type req <> Some "report"
      /\ type req <> Some "token") ->
  status (response_of w req) = 400.
Proof.
  intros [[Ht Hm] | [[Ht Hm] | [[Ht Hm] | (Hg & Hr & Hk)]]].
  - apply (@status_400_of_try w req "A prompt and access token are required.").
    unfold ask_try. rewrite Ht. cbn [strict_eq String.eqb Ascii.eqb Bool.eqb].
    destruct Hm as [-> | ->]; cbn [falsy orb]; [reflexivity |].
    rewrite orb_true_r. reflexivity.
  - apply (@status_400_of_try w req "Access token required.").
    unfold ask_try. rewrite Ht, Hm. reflexivity.
  - apply (@status_400_of_try w req "A code is required.").
    unfold ask_try. rewrite Ht, Hm. reflexivity.
  - apply (@status_400_of_try w req "A valid request type was not provided.").
    unfold ask_try.
    rewrite (strict_eq_other Hg), (strict_eq_other Hr), (strict_eq_other Hk).
    reflexivity.
Qed.

Lemma missing_field_or_type_is_400_witness :
  status (response_of sample_world
            (mkRequest (Some "gemini") None (Some "ya29.token") None)) = 400
  /\ status (response_of sample_world
               (mkRequest (Some "report") None None None)) = 400
  /\ status (response_of sample_world
               (mkRequest (Some "token") None None None)) = 400
  /\ status (response_of sample_world
               (mkRequest (Some "summary") (Some "p") (Some "t") (Some "c"))) = 400
  /\ status (response_of sample_world (mkRequest None None None None)) = 400.
Proof.
  refine (conj _ (conj _ (conj _ (conj _ _))));
    apply missing_field_or_type_is_400.
  - left. split; [reflexivity | left; reflexivity].
  - right. left. split; reflexivity.
  - right. right. left. split; reflexivity.
  - right. right. right. repeat split; discriminate.
  - right. right. right. repeat split; discriminate.
Defined.

(** C10.  A required field that is present but is the empty string is
    rejected like a missing one: status 400 for a gemini request whose
    [prompt] or [accessToken] is [""], for a report request whose
    [accessToken] is [""], and for a token request whose [code] is [""]. *)
Theorem empty_field_is_400 (w : World) (req : Request) :
  (type req = Some "gemini"
   /\ (prompt req = Some "" \/ accessToken req = Some ""))
  \/ (type req = Some "report" /\ accessToken req = Some "")
  \/ (type req = Some "token" /\ code req = Some "") ->
  status (response_of w req) = 400.
Proof.
  intros [[Ht Hm] | [[Ht Hm] | [Ht Hm]]].
  - apply (@status_400_of_try w req "A prompt and access token are required.").
    unfold ask_try. rewrite Ht. cbn [strict_eq String.eqb Ascii.eqb Bool.eqb].
    destruct Hm as [-> | ->]; cbn [falsy truthy negb orb]; [reflexivity |].
    rewrite orb_true_r. reflexivity.
  - apply (@status_400_of_try w req "Access token required.").
    unfold ask_try. rewrite Ht, Hm. reflexivity.
  - apply (@status_400_of_try w req "A code is required.").
    unfold ask_try. rewrite Ht, Hm. reflexivity.
Qed.

Lemma empty_field_is_400_witness :
  status (response_of sample_world
            (mkRequest (Some "gemini") (Some "") (Some "ya29.token") None)) = 400
  /\ status (response_of sample_world
               (mkRequest (Some "gemini") (Some "question") (Some "") None)) = 400
  /\ status (response_of sample_world
               (mkRequest (Some "report") None (Some "") None)) = 400
  /\ status (response_of sample_world
               (mkRequest (Some "token") None None (Some ""))) = 400.
Proof.
  refine (conj _ (conj _ (conj _ _))); apply empty_field_is_400.
  - left. split; [reflexivity | left; reflexivity].
  - left. split; [reflexivity | right; reflexivity].
  - right. left. split; reflexivity.
  - right. right. split; reflexivity.
Defined.

(** ** The report flow *)

(** The trace and the response of a well-formed report request. *)
Lemma ask_report (w : World) (req : Request) :
  report_request req ->
  ask w req =
  match sheets_values_get w with
  | Resolved None =>
      ([SheetsGet report_range], mkResponse 200 (ReportBody empty_sheet_message))
  | Resolved (Some rows) =>
      if (length rows <=? 1)%nat then
        ([SheetsGet report_range],
         mkResponse 200 (ReportBody empty_sheet_message))
      else
        match recentQuestions w rows with
        | [] =>
            ([SheetsGet report_range],
             mkResponse 200 (ReportBody no_questions_message))
        | recent =>
            let p := report_intro ++ String.concat nl recent in
            match model_generateContent w p with
            | Resolved reportText =>
                ([SheetsGet report_range; GenerateContent p],
                 mkResponse 200 (ReportBody reportText))
            | Rejected e =>
                ([SheetsGet report_range; GenerateContent p;
                  ConsoleError ("An error occurred: " ++ message e)],
                 internal_error)
            end
        end
  | Rejected e =>
      ([SheetsGet report_range;
        ConsoleError ("An error occurred: " ++ message e)],
       internal_error)
  end.
Proof.
  intros (Ht & Ha). unfold ask, ask_try. rewrite Ht, Ha.
  cbn [strict_eq String.eqb Ascii.eqb Bool.eqb]. unfold call, bind, ret.
  fold report_range.
  destruct (sheets_values_get w) as [[rows |] | e]; try reflexivity.
  destruct (length rows <=? 1)%nat; [reflexivity |].
  destruct (recentQuestions w rows) as [| q recent]; [reflexivity |].
  cbn [length Nat.eqb].
  destruct (model_generateContent w _); reflexivity.
Qed.

(** The trace and the response of a well-formed token request. *)
Lemma ask_token (w : World) (req : Request) :
  token_request req ->
  ask w req =
  match oauth_getToken w (code req) with
  | Resolved tokens =>
      ([GetToken (code req)], mkResponse 200 (TokenBody tokens))
  | Rejected e =>
      ([GetToken (code req); ConsoleError ("An error occurred: " ++ message e)],
       internal_error)
  end.
Proof.
  intros (Ht & Hc). unfold ask, ask_try. rewrite Ht, Hc.
  cbn [strict_eq String.eqb Ascii.eqb Bool.eqb]. unfold call, bind, ret.
  destruct (oauth_getToken w (code req)); reflexivity.
Qed.

(** *** The seven-day window *)

Lemma recentQuestions_bullets (w : World) (rows : list Row) :
  recentQuestions w rows = map bullet (recent_rows w rows).
Proof. reflexivity. Qed.

Lemma is_recent_in_window (w : World) (row : Row) :
  clock_in_range w -> (is_recent w row = true <-> in_window w row).
Proof.
  unfold clock_in_range, is_recent, in_window, sevenDaysAgo, new_Date_ms.
  change (7 * 24 * 60 * 60 * 1000) with week_ms. intros Hclock. unfold timeClip.
  destruct (Z.leb_spec (Z.abs (Date_now w - week_ms)) 8640000000000000) as [_ | H];
    [| lia].
  destruct (new_Date_cell w (nth_error row 0)) as [t |]; simpl.
  - rewrite Z.ltb_lt. split.
    + intros H. exists t. split; [reflexivity | exact H].
    + intros (t' & Heq & H). injection Heq as <-. exact H.
  - split; [discriminate |]. intros (t & Heq & _). discriminate.
Qed.

Lemma filter_selected (P : Row -> Prop) (f : Row -> bool) (rows : list Row) :
  (forall row, f row = true <-> P row) -> selected P rows (filter f rows).
Proof.
  intros Hf. induction rows as [| row rows IH]; [constructor |].
  simpl. destruct (f row) eqn:Hrow.
  - apply selected_keep; [apply Hf; exact Hrow | exact IH].
  - apply selected_skip; [| exact IH].
    intros HP. apply Hf in HP. congruence.
Qed.

(** C3, as stated, fails on the first row: in [sample_rows] the first row
    is a logged row whose column 0 parses to a date within the last 7 days,
    and it is not in the recent set. *)
Lemma first_row_in_window_not_recent :
  In (hd [] sample_rows) sample_rows
  /\ in_window sample_world (hd [] sample_rows)
  /\ ~ In (hd [] sample_rows) (recent_rows sample_world sample_rows).
Proof.
  split; [left; reflexivity |]. split.
  - exists 1704672000000. split; [reflexivity | reflexivity].
  - intros [H | []]. discriminate H.
Qed.

(** C3, amended.  In the report flow, with [rows] the rows read from the sheet, the
    recent set is taken from the rows below the first one: such a row is in
    it if and only if its column 0, parsed as a date, is strictly after now
    minus 7 days; a row whose column 0 does not parse as a date is left
    out; the surviving rows keep their order; and when the set is not empty
    the model is asked once, with a prompt that ends in one bullet line per
    surviving row, built from column 2 of that row, in that order. *)
Theorem report_lists_recent_rows (w : World) (req : Request) (rows : list Row) :
  report_request req ->
  sheets_values_get w = Resolved (Some rows) ->
  clock_in_range w ->
  selected (in_window w) (tl rows) (recent_rows w rows)
  /\ (forall row, In row (recent_rows w rows)
                  <-> In row (tl rows) /\ in_window w row)
  /\ (forall row, new_Date_cell w (nth_error row 0) = None ->
                  ~ In row (recent_rows w rows))
  /\ (recent_rows w rows <> [] ->
      model_prompts (trace_of w req)
      = [report_intro ++ String.concat nl (map bullet (recent_rows w rows))]).
Proof.
  intros Hreq Hget Hclock.
  pose proof (fun row => is_recent_in_window row Hclock) as Hwin.
  refine (conj _ (conj _ (conj _ _))).
  - apply filter_selected. exact Hwin.
  - intros row. unfold recent_rows. rewrite filter_In, Hwin. reflexivity.
  - intros row Hnan Hin. unfold recent_rows in Hin.
    apply filter_In in Hin. destruct Hin as [_ Hrec].
    apply Hwin in Hrec. destruct Hrec as (t & Ht & _). congruence.
  - intros Hne. unfold trace_of. rewrite (ask_report w Hreq), Hget.
    rewrite recentQuestions_bullets.
    destruct (length rows <=? 1)%nat eqn:Hlen.
    + exfalso. apply Hne. apply Nat.leb_le in Hlen. unfold recent_rows.
      destruct rows as [| r0 [| r1 rest]]; simpl in *; [reflexivity .. | lia].
    + destruct (recent_rows w rows) as [| row kept] eqn:Hrec; [congruence |].
      cbn [map]. cbv zeta.
      destruct (model_generateContent w _); reflexivity.
Qed.

Lemma sample_clock : clock_in_range sample_world.
Proof. unfold clock_in_range. vm_compute. discriminate. Defined.

Lemma report_lists_recent_rows_witness :
  recent_rows sample_world sample_rows
  = [["2024-01-08T00:00:00.000Z"; "va@example.com"; "second question"]]
  /\ model_prompts (trace_of sample_world sample_report_request)
     = [report_intro ++ "- second question"].
Proof.
  split; [reflexivity |].
  refine (proj2 (proj2 (proj2
    (@report_lists_recent_rows sample_world sample_report_request sample_rows
       _ _ sample_clock))) _).
  - split; reflexivity.
  - reflexivity.
  - discriminate.
Defined.

(** C7.  In the report flow, when the sheet read returns no rows or a
    single row, the response is 200 with the fixed "log sheet is empty"
    message and the model is never asked; when there are more rows and none
    of those below the first is recent, the response is 200 with the fixed
    "no questions" message, and the model is never asked either. *)
Theorem report_without_model_call
  (w : World) (req : Request) (values : option (list Row)) :
  report_request req ->
  sheets_values_get w = Resolved values ->
  ((values = None \/ exists rows, values = Some rows /\ (length rows <= 1)%nat) ->
   response_of w req = mkResponse 200 (ReportBody empty_sheet_message)
   /\ model_prompts (trace_of w req) = [])
  /\ (forall rows,
        values = Some rows -> (1 < length rows)%nat ->
        recent_rows w rows = [] ->
        response_of w req = mkResponse 200 (ReportBody no_questions_message)
        /\ model_prompts (trace_of w req) = []).
Proof.
  intros Hreq Hget. unfold response_of, trace_of.
  rewrite (ask_report w Hreq), Hget. split.
  - intros [-> | (rows & -> & Hlen)]; [split; reflexivity |].
    apply Nat.leb_le in Hlen. rewrite Hlen. split; reflexivity.
  - intros rows -> Hlen Hrec.
    apply Nat.leb_gt in Hlen. rewrite Hlen.
    rewrite recentQuestions_bullets, Hrec. split; reflexivity.
Qed.

Lemma report_without_model_call_witness :
  (response_of (with_rows sample_world (Some [hd [] sample_rows]))
               sample_report_request
   = mkResponse 200 (ReportBody empty_sheet_message)
   /\ model_prompts (trace_of (with_rows sample_world (Some [hd [] sample_rows]))
                              sample_report_request) = [])
  /\ (response_of (with_rows sample_world
                     (Some [hd [] sample_rows; nth 4 sample_rows []]))
                  sample_report_request
      = mkResponse 200 (ReportBody no_questions_message)
      /\ model_prompts
           (trace_of (with_rows sample_world
                        (Some [hd [] sample_rows; nth 4 sample_rows []]))
                     sample_report_request) = []).
Proof.
  split.
  - refine (proj1 (@report_without_model_call
                     (with_rows sample_world (Some [hd [] sample_rows]))
                     sample_report_request _ _ _) _).
    + split; reflexivity.
    + reflexivity.
    + right. eexists. split; [reflexivity | simpl; lia].
  - refine (proj2 (@report_without_model_call
                     (with_rows sample_world
                        (Some [hd [] sample_rows; nth 4 sample_rows []]))
                     sample_report_request _ _ _) _ _ _ _).
    + split; reflexivity.
    + reflexivity.
    + reflexivity.
    + simpl; lia.
    + reflexivity.
Defined.

(** C9.  In the report flow the first row read from the sheet never
    reaches the recent set: the bullets come from the rows below it alone,
    and putting any other row in its place, one dated within the last 7 days
    included, changes neither the calls made nor the response. *)
Theorem first_row_never_reported
  (w : World) (req : Request) (first : Row) (rest : list Row) :
  report_request req ->
  sheets_values_get w = Resolved (Some (first :: rest)) ->
  recent_rows w (first :: rest) = filter (is_recent w) rest
  /\ recentQuestions w (first :: rest) = map bullet (filter (is_recent w) rest)
  /\ (forall other : Row,
        ask (with_rows w (Some (other :: rest))) req = ask w req).
Proof.
  intros Hreq Hget. refine (conj eq_refl (conj eq_refl _)).
  intros other. rewrite !(ask_report _ Hreq), Hget. reflexivity.
Qed.

Lemma first_row_never_reported_witness :
  is_recent sample_world (hd [] sample_rows) = true
  /\ recentQuestions sample_world sample_rows = ["- second question"]
  /\ ask (with_rows sample_world (Some (["not a date"] :: tl sample_rows)))
         sample_report_request
     = ask sample_world sample_report_request.
Proof.
  split; [reflexivity |].
  destruct (@first_row_never_reported sample_world sample_report_request
              (hd [] sample_rows) (tl sample_rows)
              (conj eq_refl eq_refl) eq_refl) as (_ & Hq & Hany).
  split; [exact Hq | exact (Hany ["not a date"])].
Defined.

(** ** The top-level catch *)

Lemma strict_eq_true (v : option string) (lit : string) :
  strict_eq v lit = true -> v = Some lit.
Proof.
  destruct v as [s |]; simpl; [| discriminate].
  intros H. apply String.eqb_eq in H. congruence.
Qed.

(** Every request is well formed for one of the three flows or is answered
    with status 400 before any call is made. *)
Lemma request_cases (w : World) (req : Request) :
  gemini_request req \/ report_request req \/ token_request req
  \/ (status (response_of w req) = 400 /\ trace_of w req = []).
Proof.
  unfold gemini_request, report_request, token_request.
  destruct (strict_eq (type req) "gemini") eqn:Hg.
  { destruct (falsy (prompt req) || falsy (accessToken req)) eqn:Hm.
    - right. right. right.
      apply (@status_400_of_try w req "A prompt and access token are required.").
      unfold ask_try. rewrite Hg, Hm. reflexivity.
    - apply orb_false_elim in Hm. left. apply strict_eq_true in Hg. tauto. }
  destruct (strict_eq (type req) "report") eqn:Hr.
  { destruct (falsy (accessToken req)) eqn:Hm.
    - right. right. right.
      apply (@status_400_of_try w req "Access token required.").
      unfold ask_try. rewrite Hg, Hr, Hm. reflexivity.
    - right. left. apply strict_eq_true in Hr. tauto. }
  destruct (strict_eq (type req) "token") eqn:Hk.
  { destruct (falsy (code req)) eqn:Hm.
    - right. right. right.
      apply (@status_400_of_try w req "A code is required.").
      unfold ask_try. rewrite Hg, Hr, Hk, Hm. reflexivity.
    - right. right. left. apply strict_eq_true in Hk. tauto. }
  right. right. right.
  apply (@status_400_of_try w req "A valid request type was not provided.").
  unfold ask_try. rewrite Hg, Hr, Hk. reflexivity.
Qed.

Lemma gemini_context_rejected (w : World) (e : Error) :
  settled (gemini_context w) = Rejected e <->
  drive_files_list w folder_query = Rejected e
  \/ exists folder others,
       drive_files_list w folder_query = Resolved (Some (folder :: others))
       /\ drive_files_list w (children_query (id folder)) = Rejected e.
Proof.
  unfold gemini_context. rewrite settled_bind. unfold call at 1.
  cbn [settled snd].
  destruct (drive_files_list w folder_query) as [[[| folder others] |] | e0].
  - cbn [settled ret snd]. split; [discriminate |]. intros [H | (f & o & H & _)]; discriminate.
  - fold (children_query (id folder)). rewrite settled_bind. unfold call at 1.
    cbn [settled snd].
    destruct (drive_files_list w (children_query (id folder)))
      as [[[| file files] |] | e1] eqn:Hc.
    + cbn [settled ret snd]. split; [discriminate |].
      intros [H | (f & o & H & H')]; [discriminate |].
      injection H as <- <-. congruence.
    + rewrite settled_bind.
      destruct (all_contentPromises w (file :: files)) as [-> _].
      cbn [settled ret snd]. split; [discriminate |].
      intros [H | (f & o & H & H')]; [discriminate |].
      injection H as <- <-. congruence.
    + cbn [settled ret snd]. split; [discriminate |].
      intros [H | (f & o & H & H')]; [discriminate |].
      injection H as <- <-. congruence.
    + split.
      * intros H. right. exists folder, others. split; [reflexivity | congruence].
      * intros [H | (f & o & H & H')]; [discriminate |].
        injection H as <- <-. congruence.
  - cbn [settled ret snd]. split; [discriminate |]. intros [H | (f & o & H & _)]; discriminate.
  - split.
    + intros H. left. congruence.
    + intros [H | (f & o & H & _)]; [congruence | discriminate].
Qed.

Lemma recent_rows_short (w : World) (rows : list Row) :
  (length rows <=? 1)%nat = true -> recent_rows w rows = [].
Proof.
  destruct rows as [| r0 [| r1 rest]]; [reflexivity .. | discriminate].
Qed.

(** C8.  A request whose failure is neither a rejected input nor a
    swallowed best-effort failure is answered with status 500 and exactly the
    body [{ error: "Something went wrong on the backend." }]: the response is
    the same fixed value whatever the error, whose message goes to the
    console only; and status 500 is sent for no other reason. *)
Theorem propagating_failure_is_generic_500 (w : World) (req : Request) :
  (forall e : Error,
      propagating_failure w req e ->
      response_of w req
      = mkResponse 500 (ErrorBody "Something went wrong on the backend.")
      /\ exists t, trace_of w req
                   = (t ++ [ConsoleError ("An error occurred: " ++ message e)])%list)
  /\ (status (response_of w req) = 500 ->
      response_of w req
      = mkResponse 500 (ErrorBody "Something went wrong on the backend.")
      /\ exists e : Error, propagating_failure w req e).
Proof.
  unfold response_of, trace_of. split.
  - intros e [Hreq Hf | folder others Hreq Hf Hc | context Hreq Hctx Hm
              | Hreq Hget | rows Hreq Hget Hne Hm | Hreq Htok].
    + rewrite (ask_gemini w Hreq).
      assert (Hs : settled (gemini_context w) = Rejected e)
        by (apply gemini_context_rejected; left; exact Hf).
      rewrite Hs. split; [reflexivity | eexists; reflexivity].
    + rewrite (ask_gemini w Hreq).
      assert (Hs : settled (gemini_context w) = Rejected e)
        by (apply gemini_context_rejected; right; exists folder, others; auto).
      rewrite Hs. split; [reflexivity | eexists; reflexivity].
    + rewrite (ask_gemini w Hreq), Hctx. cbv zeta. rewrite Hm.
      split; [reflexivity |]. rewrite app_assoc. eexists; reflexivity.
    + rewrite (ask_report w Hreq), Hget.
      split; [reflexivity | exists [SheetsGet report_range]; reflexivity].
    + rewrite (ask_report w Hreq), Hget.
      destruct (length rows <=? 1)%nat eqn:Hlen;
        [apply (recent_rows_short w) in Hlen; congruence |].
      rewrite recentQuestions_bullets.
      destruct (recent_rows w rows) as [| row kept]; [congruence |].
      cbn [map]. cbv zeta. cbn [map] in Hm. rewrite Hm.
      split; [reflexivity |].
      eexists [SheetsGet report_range; GenerateContent _]. reflexivity.
    + rewrite (ask_token w Hreq), Htok.
      split; [reflexivity | exists [GetToken (code req)]; reflexivity].
  - destruct (request_cases w req) as [Hreq | [Hreq | [Hreq | [H400 _]]]].
    + rewrite (ask_gemini w Hreq).
      destruct (settled (gemini_context w)) as [context | e] eqn:Hctx.
      * cbv zeta.
        destruct (model_generateContent w _) as [answer | e] eqn:Hm;
          cbn [snd status]; [discriminate |].
        intros _. split; [reflexivity |]. exists e.
        apply answer_fails with context; assumption.
      * intros _. split; [reflexivity |]. exists e.
        apply gemini_context_rejected in Hctx.
        destruct Hctx as [Hf | (folder & others & Hf & Hc)].
        -- apply folder_lookup_fails; assumption.
        -- apply children_listing_fails with folder others; assumption.
    + rewrite (ask_report w Hreq).
      destruct (sheets_values_get w) as [[rows |] | e] eqn:Hget;
        cbn [snd status]; try discriminate.
      * destruct (length rows <=? 1)%nat; cbn [snd status]; [discriminate |].
        rewrite recentQuestions_bullets.
        destruct (recent_rows w rows) as [| row kept] eqn:Hrec;
          cbn [snd status map]; [discriminate |]. cbv zeta.
        destruct (model_generateContent w _) as [text | e] eqn:Hm;
          cbn [snd status]; [discriminate |].
        intros _. split; [reflexivity |]. exists e.
        apply report_fails with rows; try assumption.
        -- rewrite Hrec. discriminate.
        -- rewrite Hrec. exact Hm.
      * intros _. split; [reflexivity |]. exists e.
        apply sheet_read_fails; assumption.
    + rewrite (ask_token w Hreq).
      destruct (oauth_getToken w (code req)) as [tokens | e] eqn:Htok;
        cbn [snd status]; [discriminate |].
      intros _. split; [reflexivity |]. exists e.
      apply token_exchange_fails; assumption.
    + unfold response_of in H400. rewrite H400. discriminate.
Qed.

Lemma propagating_failure_is_generic_500_witness :
  response_of sample_world sample_token_request
  = mkResponse 500 (ErrorBody "Something went wrong on the backend.")
  /\ trace_of sample_world sample_token_request
     = [GetToken (Some "4/0AfJohXk");
        ConsoleError "An error occurred: invalid_grant"].
Proof.
  split; [| reflexivity].
  refine (proj1 (proj1 (propagating_failure_is_generic_500
                          sample_world sample_token_request)
                   (mkError "invalid_grant") _)).
  apply token_exchange_fails; [split; reflexivity | reflexivity].
Defined.

(** * Further properties of the handler and of the helper *)

(** ** Traces *)

Lemma filter_none (k k' : Event -> bool) (t : list Event) :
  (forall ev, k ev = true -> k' ev = true) ->
  filter k' t = [] -> filter k t = [].
Proof.
  intros Hk. induction t as [| ev t IH]; [reflexivity |].
  simpl. destruct (k' ev) eqn:Hev; [discriminate |].
  destruct (k ev) eqn:Hkev; [apply Hk in Hkev; congruence | exact IH].
Qed.

Lemma helper_listings (w : World) (fileId mimeType fileName : string) :
  filter is_listing (trace (getDriveFileContent w fileId mimeType fileName)) = [].
Proof. helper_cases. Qed.

Lemma helper_exports (w : World) (fileId mimeType fileName : string) :
  filter is_export (trace (getDriveFileContent w fileId mimeType fileName))
  = if supported_mime mimeType
    then [DriveFilesExport fileId (export_type mimeType)] else [].
Proof. unfold supported_mime, export_type. helper_cases. Qed.

Lemma helper_downloads (w : World) (fileId mimeType fileName : string) :
  filter is_download (trace (getDriveFileContent w fileId mimeType fileName))
  = if supported_mime mimeType
    then match drive_files_export w fileId (export_type mimeType) with
         | Rejected _ => [DriveFilesGetMedia fileId]
         | Resolved _ => []
         end
    else [].
Proof. unfold supported_mime, export_type. helper_cases. Qed.

Lemma helper_network (w : World) (fileId mimeType fileName : string) :
  network_calls (trace (getDriveFileContent w fileId mimeType fileName))
  = fst (extraction_contract w fileId mimeType).
Proof. helper_cases. Qed.

Lemma helper_drive_or_console (w : World) (fileId mimeType fileName : string) :
  forallb is_drive_or_console
    (trace (getDriveFileContent w fileId mimeType fileName)) = true.
Proof. helper_cases. Qed.

Lemma contentPromise_trace (w : World) (file : DriveFile) :
  trace (catch (getDriveFileContent w (id file) (mimeType file) (name file))
               (fun _ => ret ""))
  = file_trace w file.
Proof.
  rewrite trace_catch. unfold file_trace.
  destruct (settled (getDriveFileContent w (id file) (mimeType file) (name file)));
    [reflexivity | apply app_nil_r].
Qed.

Lemma all_contentPromises_trace (w : World) (files : list DriveFile) :
  trace (all (contentPromises w files)) = flat_map (file_trace w) files.
Proof.
  induction files as [| file files IH]; [reflexivity |].
  pose proof (all_contentPromises w files) as [Hs _].
  unfold contentPromises in *. cbn [map all flat_map].
  pose proof (contentPromise_settled w file) as Hf.
  pose proof (contentPromise_trace w file) as Ht.
  destruct (catch (getDriveFileContent w (id file) (mimeType file) (name file))
                  (fun _ => ret "")) as [t o].
  simpl in Hf, Ht. subst o t.
  destruct (all (map _ files)) as [t' o'].
  simpl in Hs, IH. subst o' t'. reflexivity.
Qed.

(** The events of lines 64-85, from the answers of the two listings. *)
Lemma gemini_context_trace (w : World) :
  trace (gemini_context w)
  = match drive_files_list w folder_query with
    | Resolved (Some (folder :: _)) =>
        folder_listing :: children_listing (id folder)
        :: match drive_files_list w (children_query (id folder)) with
           | Resolved (Some files) => flat_map (file_trace w) files
           | _ => []
           end
    | _ => [folder_listing]
    end.
Proof.
  unfold gemini_context. rewrite trace_bind. unfold call at 1 2.
  cbn [settled trace fst snd]. fold folder_listing.
  destruct (drive_files_list w folder_query) as [[[| folder others] |] | e];
    try reflexivity.
  fold (children_query (id folder)). rewrite trace_bind. unfold call at 1 2.
  cbn [settled trace fst snd]. fold (children_listing (id folder)).
  destruct (drive_files_list w (children_query (id folder)))
    as [[[| file files] |] | e]; try reflexivity.
  rewrite trace_bind.
  destruct (all_contentPromises w (file :: files)) as [-> _].
  rewrite all_contentPromises_trace. cbn [trace ret fst].
  rewrite app_nil_r. reflexivity.
Qed.

Lemma log_question_no_drive_call (w : World) (p : option string) :
  filter is_drive_call (trace (log_question w p)) = [].
Proof.
  unfold log_question, catch, bind, call, emit, settled, trace.
  destruct (userinfo_get w) as [email | e]; [| reflexivity].
  destruct (sheets_values_append w _) as [[] | e]; reflexivity.
Qed.

Lemma filter_app_none (k : Event -> bool) (t t' : list Event) :
  filter k t' = [] -> filter k (t ++ t') = filter k t.
Proof. intros H. rewrite filter_app, H. apply app_nil_r. Qed.

(** The drive calls of a well-formed gemini request are those made while
    the context is assembled. *)
Lemma gemini_trace_filter (k : Event -> bool) (w : World) (req : Request) :
  (forall ev, k ev = true -> is_drive_call ev = true) ->
  gemini_request req ->
  filter k (trace_of w req) = filter k (trace (gemini_context w)).
Proof.
  intros Hk Hreq. unfold trace_of. rewrite (ask_gemini w Hreq).
  destruct (settled (gemini_context w)) as [context | e]; cbv zeta.
  - destruct (model_generateContent w _) as [answer | e]; cbn [fst];
      apply filter_app_none, (@filter_none k is_drive_call _ Hk).
    + cbn [filter is_drive_call is_listing is_export is_download orb].
      apply log_question_no_drive_call.
    + reflexivity.
  - cbn [fst]. apply filter_app_none, (@filter_none k is_drive_call _ Hk). reflexivity.
Qed.

Lemma filter_flat_map (k : Event -> bool) (f : DriveFile -> list Event)
  (files : list DriveFile) :
  filter k (flat_map f files) = flat_map (fun file => filter k (f file)) files.
Proof.
  induction files as [| file files IH]; [reflexivity |].
  cbn [flat_map]. rewrite filter_app, IH. reflexivity.
Qed.

Lemma flat_map_nothing (f : DriveFile -> list Event) (files : list DriveFile) :
  (forall file, f file = []) -> flat_map f files = [].
Proof.
  intros H. induction files as [| file files IH]; [reflexivity |].
  cbn [flat_map]. rewrite H, IH. reflexivity.
Qed.

Lemma flat_map_optional (p : DriveFile -> bool) (g : DriveFile -> Event)
  (files : list DriveFile) :
  flat_map (fun file => if p file then [g file] else []) files
  = map g (filter p files).
Proof.
  induction files as [| file files IH]; [reflexivity |].
  cbn [flat_map filter]. rewrite IH. destruct (p file); reflexivity.
Qed.

Lemma listing_is_drive_call (ev : Event) :
  is_listing ev = true -> is_drive_call ev = true.
Proof. destruct ev; intros H; try discriminate H; reflexivity. Qed.

Lemma export_is_drive_call (ev : Event) :
  is_export ev = true -> is_drive_call ev = true.
Proof. destruct ev; intros H; try discriminate H; reflexivity. Qed.

Lemma download_is_drive_call (ev : Event) :
  is_download ev = true -> is_drive_call ev = true.
Proof. destruct ev; intros H; try discriminate H; reflexivity. Qed.

(** The events of the context assembly for a listed set of children: the
    listings, then the extraction of each file. *)
Lemma listed_children_trace (k : Event -> bool) (w : World)
  (files : list DriveFile) :
  (forall q fields pageSize, k (DriveFilesList q fields pageSize) = false) ->
  listed_children w files ->
  filter k (trace (gemini_context w))
  = flat_map (fun file => filter k (file_trace w file)) files.
Proof.
  intros Hk H. rewrite gemini_context_trace.
  destruct H as [folders Hf Hnone | folder others Hf Hc | folder others files Hf Hc];
    rewrite Hf.
  - destruct Hnone as [-> | ->]; unfold folder_listing; cbn [filter];
      rewrite Hk; reflexivity.
  - rewrite Hc. unfold folder_listing, children_listing. cbn [filter].
    rewrite !Hk. reflexivity.
  - rewrite Hc. unfold folder_listing, children_listing. cbn [filter].
    rewrite !Hk. apply filter_flat_map.
Qed.

(** ** The drive calls of a gemini request *)

(** X1.  A well-formed gemini request looks the folder up once, with page
    size 1, and lists the children of the first folder found only; the
    extraction of files issues no listing. *)
Theorem listings_of_gemini_request (w : World) (req : Request) :
  gemini_request req ->
  filter is_listing (trace_of w req)
  = match drive_files_list w folder_query with
    | Resolved (Some (folder :: _)) =>
        [DriveFilesList folder_query "files(id)" (Some 1);
         DriveFilesList (children_query (id folder))
                        "files(id, name, mimeType)" None]
    | _ => [DriveFilesList folder_query "files(id)" (Some 1)]
    end.
Proof.
  intros Hreq.
  rewrite (@gemini_trace_filter is_listing w req listing_is_drive_call Hreq).
  rewrite gemini_context_trace.
  assert (Hfiles : forall files,
             filter is_listing (flat_map (file_trace w) files) = []).
  { intros files. rewrite filter_flat_map. apply flat_map_nothing.
    intros file. apply helper_listings. }
  destruct (drive_files_list w folder_query) as [[[| folder others] |] | e];
    try reflexivity.
  unfold folder_listing, children_listing. cbn [filter is_listing].
  destruct (drive_files_list w (children_query (id folder)))
    as [[files |] | e]; try reflexivity.
  rewrite Hfiles. reflexivity.
Qed.

Lemma listings_of_gemini_request_witness :
  filter is_listing (trace_of sample_world sample_gemini_request)
  = [DriveFilesList folder_query "files(id)" (Some 1);
     DriveFilesList "'F' in parents and trashed=false"
                    "files(id, name, mimeType)" None].
Proof.
  apply (@listings_of_gemini_request sample_world sample_gemini_request).
  repeat split.
Defined.

(** X2.  In a well-formed gemini request over the listed children [files],
    the export calls are one per file of a supported type, in listing order,
    each asking for [text/plain] (native document) or for the file's own
    type; a file of any other type is never requested.  A raw download is
    issued for exactly the files whose export call was refused. *)
Theorem exports_of_gemini_request
  (w : World) (req : Request) (files : list DriveFile) :
  gemini_request req ->
  listed_children w files ->
  filter is_export (trace_of w req)
  = map (fun file => DriveFilesExport (id file) (export_type (mimeType file)))
        (filter (fun file => supported_mime (mimeType file)) files)
  /\ (forall fileId,
        In (DriveFilesGetMedia fileId) (trace_of w req)
        <-> exists file, In file files /\ id file = fileId
                         /\ export_refused w file = true).
Proof.
  intros Hreq Hl. split.
  - rewrite (@gemini_trace_filter is_export w req export_is_drive_call Hreq).
    rewrite (@listed_children_trace is_export w files (fun _ _ _ => eq_refl) Hl).
    rewrite <- flat_map_optional. apply flat_map_ext.
    intros file. apply helper_exports.
  - intros fileId.
    assert (Hd : filter is_download (trace_of w req)
                 = map (fun file => DriveFilesGetMedia (id file))
                       (filter (export_refused w) files)).
    { rewrite (@gemini_trace_filter is_download w req download_is_drive_call Hreq).
      rewrite (@listed_children_trace is_download w files
                 (fun _ _ _ => eq_refl) Hl).
      rewrite <- flat_map_optional. apply flat_map_ext.
      intros file. unfold file_trace, export_refused.
      rewrite helper_downloads.
      destruct (supported_mime (mimeType file)); [| reflexivity].
      destruct (drive_files_export w _ _); reflexivity. }
    assert (Hin : In (DriveFilesGetMedia fileId) (trace_of w req)
                  <-> In (DriveFilesGetMedia fileId)
                         (filter is_download (trace_of w req))).
    { rewrite filter_In. simpl. tauto. }
    rewrite Hin, Hd, in_map_iff. split.
    + intros (file & Heq & Hf). apply filter_In in Hf.
      exists file. injection Heq as Heq. tauto.
    + intros (file & Hf & Heq & Href). exists file.
      split; [congruence | apply filter_In; tauto].
Qed.

Lemma exports_of_gemini_request_witness :
  filter is_export (trace_of sample_world sample_gemini_request)
  = [DriveFilesExport "a" "text/plain"; DriveFilesExport "c" "text/plain"]
  /\ (In (DriveFilesGetMedia "c") (trace_of sample_world sample_gemini_request)
      <-> exists file, In file sample_files /\ id file = "c"
                       /\ export_refused sample_world file = true).
Proof.
  destruct (@exports_of_gemini_request sample_world sample_gemini_request
              sample_files (conj eq_refl (conj eq_refl eq_refl)) sample_listing)
    as [He Hd].
  split; [exact He | exact (Hd "c")].
Defined.

(** ** The content of one file *)

Lemma extraction_contract_supported (w : World) (fileId mimeType : string) :
  extraction_contract w fileId mimeType
  = if supported_mime mimeType
    then export_with_fallback w fileId (export_type mimeType)
    else ([], Resolved "").
Proof.
  unfold extraction_contract, supported_mime, export_type.
  destruct (String.eqb mimeType google_doc_mime); [reflexivity |].
  cbn [orb]. destruct (String.prefix "text/" mimeType); reflexivity.
Qed.

Lemma string_append_assoc (a b c : string) : ((a ++ b) ++ c = a ++ (b ++ c))%string.
Proof. induction a as [| ch a IH]; simpl; congruence. Qed.

Lemma string_append_empty (a : string) : (a ++ "" = a)%string.
Proof. induction a as [| ch a IH]; simpl; congruence. Qed.

Lemma concat_empty_cons (x : string) (l : list string) :
  String.concat "" (x :: l) = (x ++ String.concat "" l)%string.
Proof. destruct l; simpl; [symmetry; apply string_append_empty | reflexivity]. Qed.

Lemma fold_left_append (l : list string) (acc : string) :
  fold_left String.append l acc = (acc ++ String.concat "" l)%string.
Proof.
  revert acc. induction l as [| x l IH]; intros acc.
  - simpl. symmetry. apply string_append_empty.
  - cbn [fold_left]. rewrite IH, concat_empty_cons, string_append_assoc.
    reflexivity.
Qed.

(** X3.  When the export call of a supported file succeeds but its stream
    then emits ['error'], the helper rejects without trying the raw download:
    the export is its only network call, and in the gemini flow the file
    adds nothing to the context, whatever chunks had arrived. *)
Theorem broken_export_stream_is_not_retried
  (w : World) (file : DriveFile) (s : Stream) (e : Error) :
  supported_mime (mimeType file) = true ->
  drive_files_export w (id file) (export_type (mimeType file)) = Resolved s ->
  ending s = StreamError e ->
  network_calls (file_trace w file)
  = [DriveFilesExport (id file) (export_type (mimeType file))]
  /\ settled (getDriveFileContent w (id file) (mimeType file) (name file))
     = Rejected e
  /\ contribution w file = [].
Proof.
  intros Hsup Hx Hs.
  assert (Hc : extraction_contract w (id file) (mimeType file)
               = ([DriveFilesExport (id file) (export_type (mimeType file))],
                  Rejected e)).
  { rewrite extraction_contract_supported, Hsup. unfold export_with_fallback.
    rewrite Hx. unfold stream_result. rewrite Hs. reflexivity. }
  unfold file_trace, contribution, extraction.
  rewrite helper_network, getDriveFileContent_settled, Hc.
  repeat split.
Qed.

Lemma broken_export_stream_is_not_retried_witness :
  network_calls (file_trace broken_stream_world
                   (mkDriveFile "f1" "notes.txt" "text/plain"))
  = [DriveFilesExport "f1" "text/plain"]
  /\ contribution broken_stream_world
       (mkDriveFile "f1" "notes.txt" "text/plain") = [].
Proof.
  destruct (@broken_export_stream_is_not_retried broken_stream_world
              (mkDriveFile "f1" "notes.txt" "text/plain")
              (mkStream ["par"; "tial"] (StreamError (mkError "aborted")))
              (mkError "aborted") eq_refl eq_refl eq_refl) as (Hn & _ & Hc).
  split; [exact Hn | exact Hc].
Defined.

(** X4.  When the stream the helper reads, from the export or from the raw
    download after a refused export, ends normally, the extracted text is
    the concatenation of its chunks in arrival order; a stream without
    chunks gives the empty string, which adds nothing to the context. *)
Theorem content_is_chunks_in_order (w : World) (file : DriveFile) (s : Stream) :
  supported_mime (mimeType file) = true ->
  drive_files_export w (id file) (export_type (mimeType file)) = Resolved s
  \/ (exists e,
        drive_files_export w (id file) (export_type (mimeType file)) = Rejected e
        /\ drive_files_get_media w (id file) = Resolved s) ->
  ending s = StreamEnded ->
  extraction w file = Some (String.concat "" (chunks s))
  /\ (chunks s = [] -> contribution w file = []).
Proof.
  intros Hsup Hread Hs.
  assert (He : extraction w file = Some (String.concat "" (chunks s))).
  { unfold extraction.
    rewrite getDriveFileContent_settled, extraction_contract_supported, Hsup.
    unfold export_with_fallback.
    destruct Hread as [Hx | (e & Hx & Hg)]; rewrite Hx, ?Hg;
      unfold stream_result; rewrite Hs; cbn [snd];
      rewrite fold_left_append; reflexivity. }
  split; [exact He |].
  intros Hnil. unfold contribution. rewrite He, Hnil. reflexivity.
Qed.

Lemma content_is_chunks_in_order_witness :
  extraction sample_world (mkDriveFile "c" "C" google_doc_mime) = Some "y".
Proof.
  refine (proj1 (@content_is_chunks_in_order sample_world
                   (mkDriveFile "c" "C" google_doc_mime)
                   (mkStream ["y"] StreamEnded) eq_refl _ eq_refl)).
  right. exists (mkError "export refused"). split; reflexivity.
Defined.

(** ** Outcome of a gemini request *)

(** X5.  Once the two listings have answered, a well-formed gemini request
    succeeds exactly when the model answers the prompt built around the
    context: no refused export, refused download or broken stream, and no
    failure of the logging step, can turn it into an error. *)
Theorem gemini_succeeds_iff_model_answers
  (w : World) (req : Request) (files : list DriveFile) :
  gemini_request req ->
  listed_children w files ->
  let p := enhancedPrompt
             (String.concat context_delimiter (contributions w files))
             (prompt req) in
  (forall answer,
      model_generateContent w p = Resolved answer ->
      response_of w req = mkResponse 200 (AnswerBody answer))
  /\ (status (response_of w req) = 200
      <-> exists answer, model_generateContent w p = Resolved answer).
Proof.
  intros Hreq Hl p. unfold response_of.
  rewrite (ask_gemini w Hreq), (gemini_context_settled Hl). cbv zeta.
  fold p. split.
  - intros answer ->. reflexivity.
  - destruct (model_generateContent w p) as [answer | e]; cbn [snd status].
    + split; [intros _; exists answer; reflexivity | reflexivity].
    + split; [discriminate | intros [answer H]; discriminate H].
Qed.

Lemma gemini_succeeds_iff_model_answers_witness :
  response_of refusing_drive_world sample_gemini_request
  = mkResponse 200 (AnswerBody "answer").
Proof.
  refine (proj1 (@gemini_succeeds_iff_model_answers refusing_drive_world
                   sample_gemini_request sample_files
                   (conj eq_refl (conj eq_refl eq_refl)) _)
            "answer" eq_refl).
  eapply children_listed; reflexivity.
Defined.

(** ** What a request may do *)

(** Every request is well formed for one of the three flows, or is turned
    down with status 400 and an error body before anything else happens. *)
Lemma request_classes (w : World) (req : Request) :
  gemini_request req \/ report_request req \/ token_request req
  \/ exists msg, ask w req = ([], mkResponse 400 (ErrorBody msg)).
Proof.
  unfold gemini_request, report_request, token_request, ask, ask_try.
  destruct (strict_eq (type req) "gemini") eqn:Hg.
  { destruct (falsy (prompt req) || falsy (accessToken req)) eqn:Hm.
    - right. right. right. eexists. reflexivity.
    - apply orb_false_elim in Hm. left. apply strict_eq_true in Hg. tauto. }
  destruct (strict_eq (type req) "report") eqn:Hr.
  { destruct (falsy (accessToken req)) eqn:Hm.
    - right. right. right. eexists. reflexivity.
    - right. left. apply strict_eq_true in Hr. tauto. }
  destruct (strict_eq (type req) "token") eqn:Hk.
  { destruct (falsy (code req)) eqn:Hm.
    - right. right. right. eexists. reflexivity.
    - right. right. left. apply strict_eq_true in Hk. tauto. }
  right. right. right. eexists. reflexivity.
Qed.

Lemma gemini_context_drive_or_console (w : World) (ev : Event) :
  In ev (trace (gemini_context w)) -> is_drive_or_console ev = true.
Proof.
  rewrite gemini_context_trace.
  assert (Hfiles : forall files,
             In ev (flat_map (file_trace w) files) ->
             is_drive_or_console ev = true).
  { intros files Hin. apply in_flat_map in Hin. destruct Hin as (file & _ & Hin).
    revert ev Hin. apply forallb_forall. apply helper_drive_or_console. }
  destruct (drive_files_list w folder_query) as [[[| folder others] |] | e];
    try (intros [<- | []]; reflexivity).
  intros [<- | [<- | Hin]]; try reflexivity.
  destruct (drive_files_list w (children_query (id folder)))
    as [[files |] | e]; try contradiction.
  exact (Hfiles files Hin).
Qed.

(** The events of the logging block. *)
Lemma log_question_trace (w : World) (p : option string) :
  trace (log_question w p)
  = match userinfo_get w with
    | Resolved email =>
        let logEntry := [log_time_ISO w; or_default email "unknown"; interp p] in
        UserinfoGet :: SheetsAppend "A1" logEntry
        :: match sheets_values_append w logEntry with
           | Resolved _ => []
           | Rejected e =>
               [ConsoleError ("Failed to log question to Google Sheet: "
                              ++ message e)]
           end
    | Rejected e =>
        [UserinfoGet;
         ConsoleError ("Failed to log question to Google Sheet: " ++ message e)]
    end.
Proof.
  unfold log_question, catch, bind, call, emit, settled, trace.
  destruct (userinfo_get w) as [email | e]; [| reflexivity].
  cbv zeta. destruct (sheets_values_append w _) as [[] | e]; reflexivity.
Qed.

(** X6.  A row is appended to the log sheet only by a well-formed gemini
    request, only after the model has answered, and only when the identity
    lookup succeeded; the row goes to range [A1] and holds the logging time,
    the caller's email, or ["unknown"] when the email is missing or empty,
    and the original prompt.  Under those conditions the append is always
    attempted. *)
Theorem log_row_only_for_answered_question
  (w : World) (req : Request) (range : string) (row : Row) :
  In (SheetsAppend range row) (trace_of w req)
  <-> gemini_request req
      /\ (exists context answer,
            settled (gemini_context w) = Resolved context
            /\ model_generateContent w (enhancedPrompt context (prompt req))
               = Resolved answer)
      /\ (exists email,
            userinfo_get w = Resolved email
            /\ row = [log_time_ISO w; or_default email "unknown";
                      interp (prompt req)])
      /\ range = "A1".
Proof.
  unfold trace_of. split.
  - destruct (request_classes w req) as [Hreq | [Hreq | [Hreq | [msg H400]]]].
    + rewrite (ask_gemini w Hreq).
      destruct (settled (gemini_context w)) as [context | e] eqn:Hctx; cbv zeta.
      * destruct (model_generateContent w _) as [answer | e] eqn:Hm; cbn [fst];
          intros Hin; apply in_app_or in Hin;
          (destruct Hin as [Hin | Hin];
           [apply gemini_context_drive_or_console in Hin; discriminate Hin |]).
        -- destruct Hin as [Hin | Hin]; [discriminate Hin |].
           rewrite log_question_trace in Hin.
           destruct (userinfo_get w) as [email | e] eqn:Hu.
           ++ cbv zeta in Hin.
              destruct Hin as [Hin | [Hin | Hin]]; [discriminate Hin | |].
              ** injection Hin as <- <-.
                 split; [exact Hreq |]. split; [exists context, answer; auto |].
                 split; [exists email; auto | reflexivity].
              ** destruct (sheets_values_append w _);
                   [contradiction | destruct Hin as [Hin | []]; discriminate Hin].
           ++ destruct Hin as [Hin | [Hin | []]]; discriminate Hin.
        -- destruct Hin as [Hin | [Hin | []]]; discriminate Hin.
      * cbn [fst]. intros Hin. apply in_app_or in Hin.
        destruct Hin as [Hin | [Hin | []]];
          [apply gemini_context_drive_or_console in Hin |]; discriminate Hin.
    + rewrite (ask_report w Hreq).
      destruct (sheets_values_get w) as [[rows |] | e].
      * destruct (length rows <=? 1)%nat;
          [intros [Hin | []]; discriminate Hin |].
        destruct (recentQuestions w rows) as [| q recent];
          [intros [Hin | []]; discriminate Hin |].
        cbv zeta. destruct (model_generateContent w _); cbn [fst];
          intros Hin; repeat (destruct Hin as [Hin | Hin]; try discriminate Hin);
          contradiction.
      * intros [Hin | []]; discriminate Hin.
      * intros [Hin | [Hin | []]]; discriminate Hin.
    + rewrite (ask_token w Hreq).
      destruct (oauth_getToken w (code req));
        intros Hin; repeat (destruct Hin as [Hin | Hin]; try discriminate Hin);
        contradiction.
    + rewrite H400. intros [].
  - intros (Hreq & (context & answer & Hctx & Hm) & (email & Hu & ->) & ->).
    rewrite (ask_gemini w Hreq), Hctx. cbv zeta. rewrite Hm. cbn [fst].
    apply in_or_app. right. right. rewrite log_question_trace, Hu.
    right. left. reflexivity.
Qed.

Lemma log_row_only_for_answered_question_witness :
  In (SheetsAppend "A1" ["2024-01-08T07:46:40.000Z"; "unknown";
                         "Where is the handbook?"])
     (trace_of (with_logging sample_world (Resolved (Some ""))
                  (fun _ => Rejected (mkError "quota exceeded")))
               sample_gemini_request).
Proof.
  apply log_row_only_for_answered_question.
  split; [repeat split |].
  split; [exists ("x" ++ context_delimiter ++ "y"), "answer"; split; reflexivity |].
  split; [exists (Some ""); split; reflexivity | reflexivity].
Defined.

(** X7.  Every outbound call of a request belongs to the flow its [type]
    selects: drive calls, the identity lookup and the sheet append are made
    for "gemini" only, the sheet read for "report" only, the token exchange
    for "token" only, and the model is asked for "gemini" or "report" only. *)
Theorem calls_belong_to_flow (w : World) (req : Request) (ev : Event) :
  In ev (trace_of w req) -> event_of_flow req ev.
Proof.
  unfold trace_of.
  destruct (request_classes w req) as [Hreq | [Hreq | [Hreq | [msg H400]]]].
  - rewrite (ask_gemini w Hreq). destruct Hreq as (Ht & _ & _).
    assert (Hctx : In ev (trace (gemini_context w)) -> event_of_flow req ev).
    { intros Hin. apply gemini_context_drive_or_console in Hin.
      destruct ev; try discriminate Hin; simpl; auto. }
    assert (Hlog : In ev (trace (log_question w (prompt req))) ->
                   event_of_flow req ev).
    { rewrite log_question_trace.
      destruct (userinfo_get w) as [email | e]; cbv zeta.
      - intros [<- | [<- | Hin]]; simpl; auto.
        destruct (sheets_values_append w _); [contradiction |].
        destruct Hin as [<- | []]. exact I.
      - intros [<- | [<- | []]]; simpl; auto. }
    destruct (settled (gemini_context w)) as [context | e]; cbv zeta.
    + destruct (model_generateContent w _) as [answer | e]; cbn [fst];
        intros Hin; apply in_app_or in Hin; destruct Hin as [Hin | Hin]; auto.
      * destruct Hin as [<- | Hin]; [left; exact Ht | auto].
      * destruct Hin as [<- | [<- | []]]; [left; exact Ht | exact I].
    + cbn [fst]. intros Hin. apply in_app_or in Hin.
      destruct Hin as [Hin | [<- | []]]; [auto | exact I].
  - rewrite (ask_report w Hreq). destruct Hreq as (Ht & _).
    destruct (sheets_values_get w) as [[rows |] | e].
    + destruct (length rows <=? 1)%nat; [intros [<- | []]; exact Ht |].
      destruct (recentQuestions w rows) as [| q recent];
        [intros [<- | []]; exact Ht |].
      cbv zeta. destruct (model_generateContent w _); cbn [fst].
      * intros [<- | [<- | []]]; [exact Ht | right; exact Ht].
      * intros [<- | [<- | [<- | []]]]; [exact Ht | right; exact Ht | exact I].
    + intros [<- | []]; exact Ht.
    + intros [<- | [<- | []]]; [exact Ht | exact I].
  - rewrite (ask_token w Hreq). destruct Hreq as (Ht & _).
    destruct (oauth_getToken w (code req)).
    + intros [<- | []]; exact Ht.
    + intros [<- | [<- | []]]; [exact Ht | exact I].
  - rewrite H400. intros [].
Qed.

Lemma calls_belong_to_flow_witness :
  type sample_gemini_request = Some "gemini".
Proof.
  apply (@calls_belong_to_flow sample_world sample_gemini_request
           (DriveFilesGetMedia "c")).
  vm_compute. tauto.
Defined.

(** X8.  A request is answered with status 400 exactly when the handler
    does nothing at all for it: no outbound call and no console output.
    Every request that passes validation leaves at least one event. *)
Theorem status_400_iff_nothing_done (w : World) (req : Request) :
  status (response_of w req) = 400 <-> trace_of w req = [].
Proof.
  unfold response_of, trace_of.
  destruct (request_classes w req) as [Hreq | [Hreq | [Hreq | [msg H400]]]].
  - rewrite (ask_gemini w Hreq).
    destruct (settled (gemini_context w)) as [context | e]; cbv zeta;
      [destruct (model_generateContent w _) as [answer | e] |];
      cbn [fst snd status]; (split; [discriminate |]);
      intros H; apply app_eq_nil in H; destruct H as [_ H]; discriminate H.
  - rewrite (ask_report w Hreq).
    destruct (sheets_values_get w) as [[rows |] | e];
      [destruct (length rows <=? 1)%nat;
       [| destruct (recentQuestions w rows) as [| q recent];
          [| cbv zeta; destruct (model_generateContent w _)]] | |];
      cbn [fst snd status]; split; discriminate.
  - rewrite (ask_token w Hreq).
    destruct (oauth_getToken w (code req)); cbn [fst snd status];
      split; discriminate.
  - rewrite H400. split; reflexivity.
Qed.

(** X9.  Whatever the request and whatever the collaborators answer, the
    model is asked at most once per request; it is never asked for a token
    request nor for a request answered with status 400. *)
Theorem model_called_at_most_once (w : World) (req : Request) :
  (length (model_prompts (trace_of w req)) <= 1)%nat
  /\ (type req = Some "token" \/ status (response_of w req) = 400 ->
      model_prompts (trace_of w req) = []).
Proof.
  unfold response_of, trace_of.
  destruct (request_classes w req) as [Hreq | [Hreq | [Hreq | [msg H400]]]].
  - rewrite (ask_gemini w Hreq). destruct Hreq as (Ht & _ & _).
    destruct (log_question_settles w (prompt req)) as [_ Hlog].
    destruct (settled (gemini_context w)) as [context | e]; cbv zeta;
      [destruct (model_generateContent w _) as [answer | e] |];
      cbn [fst snd status]; rewrite model_prompts_app,
        gemini_context_no_model_call; cbn [model_prompts app]; rewrite ?Hlog;
      (split; [simpl; lia | intros [H | H]; [congruence | discriminate H]]).
  - rewrite (ask_report w Hreq). destruct Hreq as (Ht & _).
    destruct (sheets_values_get w) as [[rows |] | e];
      [destruct (length rows <=? 1)%nat;
       [| destruct (recentQuestions w rows) as [| q recent];
          [| cbv zeta; destruct (model_generateContent w _)]] | |];
      cbn [fst snd status model_prompts];
      (split; [simpl; lia | intros [H | H]; [congruence | discriminate H]]).
  - rewrite (ask_token w Hreq).
    destruct (oauth_getToken w (code req)); cbn [fst snd status model_prompts];
      (split; [simpl; lia | reflexivity]).
  - rewrite H400. split; [simpl; lia | reflexivity].
Qed.

Lemma model_called_at_most_once_witness :
  model_prompts (trace_of sample_world sample_token_request) = [].
Proof.
  apply (proj2 (model_called_at_most_once sample_world sample_token_request)).
  left. reflexivity.
Defined.

(** ** The token flow *)

(** X10.  A token request with a non-empty code makes one outbound call,
    the exchange of that code, whether or not an access token or a prompt
    came with it; it is answered 200 with the exchanged access token, which
    may be missing from the provider's reply, exactly when the exchange
    succeeds. *)
Theorem token_exchange_only (w : World) (req : Request) :
  token_request req ->
  network_calls (trace_of w req) = [GetToken (code req)]
  /\ (forall tokens,
        oauth_getToken w (code req) = Resolved tokens ->
        response_of w req = mkResponse 200 (TokenBody tokens))
  /\ (status (response_of w req) = 200
      <-> exists tokens, oauth_getToken w (code req) = Resolved tokens)
  /\ (forall p a,
        ask w (mkRequest (type req) p a (code req)) = ask w req).
Proof.
  intros Hreq. unfold response_of, trace_of.
  assert (Hother : forall p a,
             token_request (mkRequest (type req) p a (code req)))
    by (intros p a; exact Hreq).
  refine (conj _ (conj _ (conj _ _))).
  - rewrite (ask_token w Hreq).
    destruct (oauth_getToken w (code req)); reflexivity.
  - intros tokens H. rewrite (ask_token w Hreq), H. reflexivity.
  - rewrite (ask_token w Hreq).
    destruct (oauth_getToken w (code req)) as [tokens | e]; cbn [snd status].
    + split; [intros _; exists tokens; reflexivity | reflexivity].
    + split; [discriminate | intros [tokens H]; discriminate H].
  - intros p a. rewrite (ask_token w (Hother p a)), (ask_token w Hreq).
    reflexivity.
Qed.

Lemma token_exchange_only_witness :
  network_calls (trace_of sample_world sample_token_request)
  = [GetToken (Some "4/0AfJohXk")]
  /\ ask sample_world (mkRequest (Some "token") (Some "hello") (Some "ya29.token")
                                 (Some "4/0AfJohXk"))
     = ask sample_world sample_token_request.
Proof.
  destruct (@token_exchange_only sample_world sample_token_request
              (conj eq_refl eq_refl)) as (Hn & _ & _ & Hany).
  split; [exact Hn | exact (Hany (Some "hello") (Some "ya29.token"))].
Defined.

(** ** Short rows of the log sheet *)

(** X11.  In the report flow an empty row is never recent, and a recent
    row with fewer than three cells still gets its bullet, which reads
    "- undefined". *)
Theorem short_rows_in_report (w : World) (rows : list Row) (row : Row) :
  In row (recent_rows w rows) ->
  row <> []
  /\ ((length row <= 2)%nat ->
      bullet row = "- undefined"
      /\ In "- undefined" (recentQuestions w rows)).
Proof.
  intros Hin. split.
  - intros ->. unfold recent_rows in Hin. apply filter_In in Hin.
    destruct Hin as [_ H]. discriminate H.
  - intros Hlen.
    assert (Hb : bullet row = "- undefined").
    { unfold bullet. destruct row as [| c0 [| c1 [| c2 row]]];
        [reflexivity .. | simpl in Hlen; lia]. }
    split; [exact Hb |].
    rewrite recentQuestions_bullets, <- Hb. apply in_map. exact Hin.
Qed.

Lemma short_rows_in_report_witness :
  In "- undefined"
     (recentQuestions sample_world
        [[]; ["2024-01-08T00:00:00.000Z"; "va@example.com"]]).
Proof.
  refine (proj2 (proj2 (@short_rows_in_report sample_world
                          [[]; ["2024-01-08T00:00:00.000Z"; "va@example.com"]]
                          ["2024-01-08T00:00:00.000Z"; "va@example.com"] _) _)).
  - left. reflexivity.
  - simpl. lia.
Defined.

(** ** Shape of the response *)

(** X12.  Every response is one of: status 200 with the body of the flow
    the request selects ([response] for gemini, [report] for report,
    [accessToken] for token); status 400 with an [error] body; or the fixed
    status 500 response. *)
Theorem response_shape (w : World) (req : Request) :
  (status (response_of w req) = 200
   /\ ((type req = Some "gemini"
        /\ exists answer, body (response_of w req) = AnswerBody answer)
       \/ (type req = Some "report"
           /\ exists report, body (response_of w req) = ReportBody report)
       \/ (type req = Some "token"
           /\ exists tokens, body (response_of w req) = TokenBody tokens)))
  \/ (status (response_of w req) = 400
      /\ exists msg, body (response_of w req) = ErrorBody msg)
  \/ response_of w req = internal_error.
Proof.
  unfold response_of.
  destruct (request_classes w req) as [Hreq | [Hreq | [Hreq | [msg H400]]]].
  - rewrite (ask_gemini w Hreq). destruct Hreq as (Ht & _ & _).
    destruct (settled (gemini_context w)) as [context | e]; cbv zeta;
      [destruct (model_generateContent w _) as [answer | e] |]; cbn [snd].
    + left. split; [reflexivity |]. left. split; [exact Ht |].
      exists answer. reflexivity.
    + right. right. reflexivity.
    + right. right. reflexivity.
  - rewrite (ask_report w Hreq). destruct Hreq as (Ht & _).
    assert (Hok : forall text,
               status (mkResponse 200 (ReportBody text)) = 200
               /\ ((type req = Some "gemini"
                    /\ exists answer,
                         body (mkResponse 200 (ReportBody text))
                         = AnswerBody answer)
                   \/ (type req = Some "report"
                       /\ exists report,
                            body (mkResponse 200 (ReportBody text))
                            = ReportBody report)
                   \/ (type req = Some "token"
                       /\ exists tokens,
                            body (mkResponse 200 (ReportBody text))
                            = TokenBody tokens))).
    { intros text. split; [reflexivity |]. right. left.
      split; [exact Ht | exists text; reflexivity]. }
    destruct (sheets_values_get w) as [[rows |] | e];
      [destruct (length rows <=? 1)%nat;
       [| destruct (recentQuestions w rows) as [| q recent];
          [| cbv zeta; destruct (model_generateContent w _)]] | |];
      cbn [snd]; try (left; apply Hok); right; right; reflexivity.
  - rewrite (ask_token w Hreq). destruct Hreq as (Ht & _).
    destruct (oauth_getToken w (code req)) as [tokens | e]; cbn [snd].
    + left. split; [reflexivity |]. right. right. split; [exact Ht |].
      exists tokens. reflexivity.
    + right. right. reflexivity.
  - rewrite H400. right. left. split; [reflexivity |].
    exists msg. reflexivity.
Qed.

(** ** A report that reaches the model *)

(** X13.  A well-formed report request whose sheet holds at least one
    recent row below the first makes exactly two outbound calls, the sheet
    read of range [Sheet1!A:C] and then one model call, and answers 200 with
    the model's text as [report]; when the model call fails instead, the
    response is the fixed status 500 one. *)
Theorem report_returns_model_text
  (w : World) (req : Request) (rows : list Row) :
  report_request req ->
  sheets_values_get w = Resolved (Some rows) ->
  recent_rows w rows <> [] ->
  let p := report_intro ++ String.concat nl (map bullet (recent_rows w rows)) in
  network_calls (trace_of w req) = [SheetsGet "Sheet1!A:C"; GenerateContent p]
  /\ (forall text,
        model_generateContent w p = Resolved text ->
        ask w req = ([SheetsGet "Sheet1!A:C"; GenerateContent p],
                     mkResponse 200 (ReportBody text)))
  /\ (forall e,
        model_generateContent w p = Rejected e ->
        response_of w req = internal_error).
Proof.
  intros Hreq Hget Hne p. unfold response_of, trace_of.
  rewrite (ask_report w Hreq), Hget.
  destruct (length rows <=? 1)%nat eqn:Hlen;
    [apply (recent_rows_short w) in Hlen; congruence |].
  rewrite recentQuestions_bullets. subst p.
  destruct (recent_rows w rows) as [| row kept]; [congruence |].
  cbn [map]. cbv zeta. refine (conj _ (conj _ _)).
  - destruct (model_generateContent w _); reflexivity.
  - intros text ->. reflexivity.
  - intros e ->. reflexivity.
Qed.

Lemma report_returns_model_text_witness :
  ask sample_world sample_report_request
  = ([SheetsGet "Sheet1!A:C";
      GenerateContent (report_intro ++ "- second question")],
     mkResponse 200 (ReportBody "answer")).
Proof.
  refine (proj1 (proj2 (@report_returns_model_text sample_world
                          sample_report_request sample_rows
                          (conj eq_refl eq_refl) eq_refl _)) "answer" eq_refl).
  discriminate.
Defined.

(** ** Joining contexts *)



